(** * House Color Gallery: the rating core, embedded and verified

    A shallow embedding of the rating synchronisation and aggregation code
    of the gallery:

    - [Results.categorizeImage] and [Results.renderResults] (results
      module),
    - [Swatches.applyLikesFilter] and [Swatches.renderSwatches] with its
      tier table (swatches module),
    - [Gallery.groupImagesByLikes], [Gallery.applyRatingFilter] and the
      tiers of the tiered view (js/gallery.js),
    - [Ratings]                   (js/ratings.js): the cache, the watcher
      registry, [setRating], [getRatings], [subscribeToRatings], the
      live-snapshot bridge of [mountCard] and the button loop of
      [updateCardUI].

    Modelling conventions.
    - A JS object used as a dictionary is the [gmap string _] of its own
      properties. Where a view reads [o[k]] under a voter's name, the
      read goes through [JS.get], which also finds the members every
      plain object inherits from [Object.prototype]. An assignment
      [o[k] = v] is an insertion, which is what it does for every
      property name but [__proto__] ([JS.protoKey]); the theorems that
      rest on such an assignment under a voter's name or an image id
      assume a name other than that one.
    - A JS string is a [string] holding its UTF-8 encoding;
      [String.prototype.trim] strips the white space and line terminator
      characters of ECMAScript.
    - An operation of the module is a function of the module state that
      returns its result, the new state and the trace of its observable
      events in program order. An asynchronous function is run to
      completion; [EvAwait] marks each suspension point, so the events
      before the first mark are those of the caller's task.
    - Watcher callbacks are observers identified by a number: a call is
      recorded in the trace. The one callback the pages register, the
      card updater of [mountCard], only touches the page.
    - The listeners of [ratingChanged] run inside [setRating], at the
      dispatch. [setRatingWith] takes what they do to the module as an
      argument; [setRating] is the call with no listener, or with
      listeners that do nothing to the module, as those of the gallery
      and of the swatches page while their filter is "all".
    - A hydration started by [subscribeToRatings] reads at once and
      fills the cache later: [hydrateFrom] takes the state of the read as
      an argument, [hydrate] is the case in which nothing happened in
      between.
    - The remote document service is an explicit store of cells; whether
      an operation on it is fulfilled is an argument of the call, and a
      rejected write leaves the store as it was.
    - The local record is the item of [localStorage] under
      [STORAGE_KEY], read and written whole; the module is its only
      writer, so its text is the serialisation of a store or does not
      parse. *)

From stdpp Require Import gmap strings list sorting.

Open Scope string_scope.
Open Scope list_scope.
Open Scope nat_scope.

(** ** JavaScript text helpers *)

Module JS.

(** A string holds the text in its UTF-8 encoding, one byte per
    character of the [string]. *)
Definition code (c : Ascii.ascii) : N := Ascii.N_of_ascii c.

(** The white space of ECMAScript outside ASCII, by encoding. Two bytes:
    U+00A0. *)
Definition space2 (a b : Ascii.ascii) : bool :=
  ((code a =? 194) && (code b =? 160))%N.

(** Three bytes: U+1680, U+2000 to U+200A, the line terminators U+2028
    and U+2029, U+202F, U+205F, U+3000 and U+FEFF. *)
Definition space3 (a b c : Ascii.ascii) : bool :=
  (((code a =? 225) && (code b =? 154) && (code c =? 128))
   || ((code a =? 226) && (code b =? 128)
       && (((128 <=? code c) && (code c <=? 138))
           || (code c =? 168) || (code c =? 169) || (code c =? 175)))
   || ((code a =? 226) && (code b =? 129) && (code c =? 159))
   || ((code a =? 227) && (code b =? 128) && (code c =? 128))
   || ((code a =? 239) && (code b =? 187) && (code c =? 191)))%N.

(** The string without its leading white space: the six characters of
    ASCII (tab, LF, VT, FF, CR, space) and the ones above. With [back] the
    string is read from its end, so that the bytes of a character come in
    reverse. *)
Fixpoint dropSpaces (back : bool) (s : string) : string :=
  match s with
  | String a s1 =>
    if Ascii.is_space a then dropSpaces back s1 else
    match s1 with
    | String b s2 =>
      if (if back then space2 b a else space2 a b) then dropSpaces back s2 else
      match s2 with
      | String c s3 =>
        if (if back then space3 c b a else space3 a b c)
        then dropSpaces back s3 else s
      | EmptyString => s
      end
    | EmptyString => s
    end
  | EmptyString => EmptyString
  end.

Definition trimStart (s : string) : string := dropSpaces false s.

Definition trimEnd (s : string) : string :=
  String.rev (dropSpaces true (String.rev s)).

(** [s.trim()] *)
Definition trim (s : string) : string := trimEnd (trimStart s).

(** [String(value ?? "").trim()]; [None] stands for [null]/[undefined],
    any other value enters through its [String(...)] conversion. *)
Definition normalizeText (value : option string) : string :=
  trim (default "" value).

(** [Object.values(o)] *)
Definition values {A} (o : gmap string A) : list A := (map_to_list o).*2.

(** [xs.filter(v => v === w).length] *)
Definition countEq (w : string) (xs : list string) : nat :=
  length (filter (λ v, v = w) xs).

(** The property names a plain object inherits from [Object.prototype].
    On an object without an own property of that name, a read [o[k]]
    yields the inherited member: a function, or for [__proto__] the
    prototype itself; in either case a truthy value that is no string. *)
Definition inheritedKeys : list string :=
  [ "constructor"; "hasOwnProperty"; "isPrototypeOf"; "propertyIsEnumerable";
    "toLocaleString"; "toString"; "valueOf"; "__proto__";
    "__defineGetter__"; "__defineSetter__"; "__lookupGetter__"; "__lookupSetter__" ].
Definition inherited (k : string) : bool := bool_decide (k ∈ inheritedKeys).

(** What a read [o[k]] of a plain object yields. *)
Inductive Read (A : Type) :=
| Own (v : A)     (* the own property of that name *)
| Member          (* no own property, but a member of Object.prototype *)
| Undefined.      (* undefined *)
Arguments Own {A} v.
Arguments Member {A}.
Arguments Undefined {A}.

(** [o[k]] *)
Definition get {A} (o : gmap string A) (k : string) : Read A :=
  match o !! k with
  | Some v => Own v
  | None => if inherited k then Member else Undefined
  end.

(** [!x] for what was read from an object of strings. *)
Definition falsy (x : Read string) : bool :=
  match x with
  | Own v => bool_decide (v = "")
  | Member => false
  | Undefined => true
  end.

(** [x === s] for a string [s]. *)
Definition same (x : Read string) (s : string) : bool :=
  match x with
  | Own v => bool_decide (v = s)
  | Member | Undefined => false
  end.

(** The one property name whose assignment [o[k] = v] on a plain object
    creates no own property: the inherited accessor takes the value. *)
Definition protoKey : string := "__proto__".

End JS.

(** ** Results module: [categorizeImage] *)

Module Results.

Inductive Category := unrated | consensus | controversial | rejected.

Definition categorizeImage (ratings : option (gmap string string)) : Category :=
  let votes := JS.values (default ∅ ratings) in
  if (length votes =? 0)%nat then unrated else
  let likes := JS.countEq "like" votes in
  let dislikes := JS.countEq "dislike" votes in
  (* Need at least 2 votes to make meaningful categorization *)
  if (length votes <? 2)%nat then unrated else
  (* Consensus: allow unsures, but no dislikes *)
  if ((0 <? likes) && (dislikes =? 0))%nat then consensus else
  (* Rejected: more dislikes than likes, or all dislikes *)
  if (likes <? dislikes)%nat then rejected else
  (* Controversial: mix of likes and dislikes *)
  if ((0 <? likes) && (0 <? dislikes))%nat then controversial else
  (* Mostly unsure = unrated *)
  unrated.

(** The classification as the specification words it, over the three
    counts: four ordered rules and a default. *)
Definition classify_spec (total likes dislikes : nat) : Category :=
  if decide (total < 2)%nat then unrated else
  if decide ((1 ≤ likes)%nat ∧ dislikes = 0%nat) then consensus else
  if decide (likes < dislikes)%nat then rejected else
  if decide ((1 ≤ likes)%nat ∧ (1 ≤ dislikes)%nat) then controversial else
  unrated.

#[global] Instance Category_eq_dec : EqDecision Category.
Proof. solve_decision. Defined.

(** The four lists [renderResults] fills, each in the order the images
    are met. *)
Record Categories := {
  cat_consensus : list string;
  cat_controversial : list string;
  cat_rejected : list string;
  cat_unrated : list string;
}.

(** [categories[category].push({ image, ratings })], an image standing for
    its id. *)
Definition pushTo (category : Category) (image : string) (cs : Categories)
    : Categories :=
  match category with
  | consensus =>
    {| cat_consensus := cat_consensus cs ++ [image];
       cat_controversial := cat_controversial cs;
       cat_rejected := cat_rejected cs; cat_unrated := cat_unrated cs |}
  | controversial =>
    {| cat_consensus := cat_consensus cs;
       cat_controversial := cat_controversial cs ++ [image];
       cat_rejected := cat_rejected cs; cat_unrated := cat_unrated cs |}
  | rejected =>
    {| cat_consensus := cat_consensus cs;
       cat_controversial := cat_controversial cs;
       cat_rejected := cat_rejected cs ++ [image]; cat_unrated := cat_unrated cs |}
  | unrated =>
    {| cat_consensus := cat_consensus cs;
       cat_controversial := cat_controversial cs;
       cat_rejected := cat_rejected cs; cat_unrated := cat_unrated cs ++ [image] |}
  end.

(** The body of the loop of [renderResults]: the list one image goes to.
    With a user selected, what [ratings[selectedUser]] yields decides,
    otherwise [categorizeImage]. *)
Definition categoryOf (allRatings : gmap string (gmap string string))
    (selectedUser image : string) : Category :=
  (* const ratings = allRatings[image.id] || {} *)
  let ratings := default ∅ (allRatings !! image) in
  if decide (selectedUser = "all") then categorizeImage (Some ratings) else
  (* const userVote = ratings[selectedUser] *)
  match JS.get ratings selectedUser with
  | JS.Own userVote =>
    if decide (userVote = "") then unrated
    else if decide (userVote = "like") then consensus
    else if decide (userVote = "dislike") then rejected
    else controversial
  | JS.Member => controversial   (* truthy, neither "like" nor "dislike" *)
  | JS.Undefined => unrated
  end.

Definition renderResults (allImages : list string)
    (allRatings : gmap string (gmap string string)) (selectedUser : string)
    : Categories :=
  foldl (λ cs image, pushTo (categoryOf allRatings selectedUser image) image cs)
        {| cat_consensus := []; cat_controversial := [];
           cat_rejected := []; cat_unrated := [] |}
        allImages.

(** The list of a category. *)
Definition listOf (category : Category) (cs : Categories) : list string :=
  match category with
  | consensus => cat_consensus cs
  | controversial => cat_controversial cs
  | rejected => cat_rejected cs
  | unrated => cat_unrated cs
  end.

End Results.

(** ** Swatches module: score tiers *)

Module Swatches.

(** The fields of a swatch record that the rating filter reads; a field
    missing from the data file is [None]. *)
Record Swatch := {
  sw_id : string;
  sw_score : option Z;
  sw_likes : option Z;
}.

(** [s.score || 0] and [s.likes || 0] *)
Definition scoreOf (s : Swatch) : Z := default 0%Z (sw_score s).
Definition likesOf (s : Swatch) : Z := default 0%Z (sw_likes s).

(** The predicate each [case] of [applyLikesFilter] filters with. *)
Definition keeps (filter : string) (s : Swatch) : bool :=
  if decide (filter = "favorites") then (5 <=? scoreOf s)%Z
  else if decide (filter = "strong") then (4 <=? scoreOf s)%Z
  else if decide (filter = "promising") then (3 <=? scoreOf s)%Z
  else if decide (filter = "controversial") then (scoreOf s <=? 2)%Z
  else true.

(** [a] may stand before [b]: the comparator
    [(b.score - a.score) || (b.likes - a.likes)] is not positive. *)
Definition before (a b : Swatch) : Prop :=
  (scoreOf b < scoreOf a)%Z ∨ (scoreOf b = scoreOf a ∧ likesOf b ≤ likesOf a)%Z.

#[global] Instance before_dec (a b : Swatch) : Decision (before a b).
Proof. unfold before. apply _. Defined.

(** [result.sort(compare)]. The sort of an array is stable; it is
    modelled by insertion from the right, an element going before the
    first one it may stand before, so that among swatches of equal score
    and likes the order of the input is kept. *)
Fixpoint insertSorted (a : Swatch) (sorted : list Swatch) : list Swatch :=
  match sorted with
  | [] => [a]
  | b :: rest => if decide (before a b) then a :: sorted else b :: insertSorted a rest
  end.
Definition sortSwatches (swatches : list Swatch) : list Swatch :=
  foldr insertSorted [] swatches.

Definition applyLikesFilter (swatches : list Swatch) (filter : string) : list Swatch :=
  sortSwatches (List.filter (keeps filter) swatches).

(** The tier table of [renderSwatches]. *)
Record Tier := {
  t_min : Z;
  t_max : option Z;
  t_label : string;
  t_sublabel : string;
}.

Definition tiers : list Tier := [
  {| t_min := 5; t_max := None;   t_label := "⭐ Favorites";     t_sublabel := "score 5-6" |};
  {| t_min := 4; t_max := Some 4%Z; t_label := "👍 Strong";        t_sublabel := "score 4" |};
  {| t_min := 3; t_max := Some 3%Z; t_label := "👀 Promising";     t_sublabel := "score 3" |};
  {| t_min := 1; t_max := Some 2%Z; t_label := "🤔 Controversial"; t_sublabel := "score 1-2" |}
].

Definition inTier (tier : Tier) (s : Swatch) : bool :=
  match t_max tier with
  | Some mx => (t_min tier <=? scoreOf s)%Z && (scoreOf s <=? mx)%Z
  | None => (t_min tier <=? scoreOf s)%Z
  end.

(** The labels of the tiers under which [renderSwatches] shows [s]. *)
Definition tiersOf (s : Swatch) : list string :=
  t_label <$> List.filter (λ tier, inTier tier s) tiers.

(** Modelled from the spec: no function of the sources computes a score
    from a vote map (the [score] field arrives pre-computed in the swatch
    data, and the weighting like=2, unsure=1, dislike=0 is named in a
    comment of [applyLikesFilter] only). The specification defines the
    score as [2 × likeCount + 1 × unsureCount]. *)
Definition score (voteMap : gmap string string) : Z :=
  2 * Z.of_nat (JS.countEq "like" (JS.values voteMap))
  + 1 * Z.of_nat (JS.countEq "unsure" (JS.values voteMap)).

(** What [renderSwatches] appends to the grid. *)
Inductive GridItem :=
| NoneFound                              (* "No swatches found" *)
| Header (label : string) (items : nat)  (* a tier header with its item count *)
| Card (swatch : Swatch).

(** One round of the loop over [tiers]: nothing for an empty tier,
    otherwise the header and the cards of the tier. *)
Definition tierItems (filtered : list Swatch) (tier : Tier) : list GridItem :=
  let tierSwatches := List.filter (inTier tier) filtered in
  if decide (length tierSwatches = 0) then []
  else Header (t_label tier) (length tierSwatches) :: (Card <$> tierSwatches).

(** [renderSwatches], from the swatches of the current category: the
    number shown in the count element and the grid's content. *)
Definition renderSwatches (categoryFiltered : list Swatch)
    (currentRatingFilter : string) : nat * list GridItem :=
  let filtered := applyLikesFilter categoryFiltered currentRatingFilter in
  (length filtered,
   if decide (length filtered = 0) then [NoneFound]
   else if decide (currentRatingFilter = "all")
   then mjoin (tierItems filtered <$> tiers)
   else Card <$> filtered).

(** The swatches that got a card. *)
Definition cardsOf (items : list GridItem) : list Swatch :=
  omap (λ item, if item is Card s then Some s else None) items.

End Swatches.

(** ** Gallery (js/gallery.js): like-count groups *)

Module Gallery.

(** [Object.values(ratings).filter(v => v === "like").length] *)
Definition likeCount (ratings : gmap string string) : nat :=
  JS.countEq "like" (JS.values ratings).

(** [Math.min(3, Math.max(0, likeCount))]: the group an image is pushed to
    by [groupImagesByLikes]. *)
Definition groupKey (ratings : gmap string string) : nat :=
  Nat.min 3 (Nat.max 0 (likeCount ratings)).

(** [groupImagesByLikes(images)], each image given with the ratings that
    [getRatingsForImage] returns for it: the images of each group, in the
    order met. *)
Definition groupImagesByLikes (images : list (string * gmap string string))
    : gmap nat (list string) :=
  foldl (λ (groups : gmap nat (list string)) image,
           let key := groupKey image.2 in
           <[key := default [] (groups !! key) ++ [image.1]]> groups)
        {[ 3 := []; 2 := []; 1 := []; 0 := [] ]} images.

(** [TIERS]: the like count and the name of each tier of the tiered
    view. *)
Definition TIERS : list (nat * string) :=
  [ (3, "Favorites"); (2, "Strong"); (1, "Maybe"); (0, "Rejected") ].

(** The tier under which the tiered view of [renderGallery] shows an
    image with these ratings: the one whose [likeCount] is the key of the
    image's group ([groups[tier.likeCount]]). *)
Definition tierOf (ratings : gmap string string) : option string :=
  snd <$> List.find (λ tier, (tier.1 =? groupKey ratings)%nat) TIERS.

(** [getCurrentUser()]: [App.getUser?.() || localStorage.getItem("houseColorUser") || "Guest"] *)
Definition getCurrentUser (appUser storedUser : option string) : string :=
  match appUser with
  | Some u => if decide (u = "") then
                match storedUser with
                | Some v => if decide (v = "") then "Guest" else v
                | None => "Guest"
                end
              else u
  | None =>
    match storedUser with
    | Some v => if decide (v = "") then "Guest" else v
    | None => "Guest"
    end
  end.

(** The [switch (filter)] of [applyRatingFilter]: whether the image is
    pushed to [results]. *)
Definition passesFilter (filter user : string) (ratings : gmap string string) : bool :=
  (* const myRating = ratings[user] *)
  let myRating := JS.get ratings user in
  let votes := JS.values ratings in
  let likes := JS.countEq "like" votes in
  let dislikes := JS.countEq "dislike" votes in
  if decide (filter = "unrated") then JS.falsy myRating
  else if decide (filter = "my-likes") then JS.same myRating "like"
  else if decide (filter = "my-dislikes") then JS.same myRating "dislike"
  else if decide (filter = "popular") then (2 <=? likes)%nat
  else if decide (filter = "controversial") then ((0 <? likes) && (0 <? dislikes))%nat
  else true.

(** [applyRatingFilter(images, filter)] for the current user, each image
    given with the ratings that [getRatingsForImage] returns for it. *)
Definition applyRatingFilter (images : list (string * gmap string string))
    (filter user : string) : list (string * gmap string string) :=
  if decide (filter = "all") then images else
  foldl (λ results image,
           if passesFilter filter user image.2 then results ++ [image] else results)
        [] images.

(** The numbers of the summary line of the tiered view of
    [renderGallery]: photos outside group 0, all photos, photos in
    group 0. *)
Definition tieredSummary (images : list (string * gmap string string))
    : nat * nat * nat :=
  let groups := groupImagesByLikes images in
  let len k := length (default [] (groups !! k)) in
  (len 3 + len 2 + len 1, length images, len 0).

End Gallery.

(** ** Ratings module (js/ratings.js) *)

Module Ratings.

Abbreviation VoteMap := (gmap string string).
Abbreviation Store := (gmap string (gmap string string)).

(** A watcher callback, by identity. *)
Definition Callback := nat.

(** [const VALID = new Set(["like", "unsure", "dislike"])] *)
Definition VALID : list string := ["like"; "unsure"; "dislike"].
Definition VALID_has (value : string) : bool := bool_decide (value ∈ VALID).

Definition STORAGE_KEY : string := "houseRatings".

(** The two [localStorage] items the module reads. [houseRatings] is the
    item under [STORAGE_KEY]: [Some store] when its text is
    [JSON.stringify(store)], [None] when the item is absent, empty or does
    not parse (the cases in which [loadOfflineStore] yields [{}]). *)
Record LocalStorage := {
  houseColorUser : option string;
  houseRatings : option Store;
}.

(** The remote document service:
    [images/{imageId}/ratings/{userName}] holds a [value] field ([None]
    when the field is missing or null), [users/{userName}] exists or not. *)
Record Remote := {
  images : gmap string (gmap string (option string));
  users : gset string;
}.

Record State := {
  db : bool;                          (* a Firestore handle is installed *)
  currentUser : option string;
  appUser : option string;            (* App.getUser(), when App is there *)
  localStorage : LocalStorage;
  cache : gmap string VoteMap;        (* imageId -> { [userName]: rating } *)
  watchers : gmap string (list Callback); (* imageId -> Set<fn>, insertion order *)
  remote : Remote;
}.

Inductive Event :=
| EvNotify (imageId : string) (fn : Callback) (ratings : VoteMap)
    (* fn({ ...ratings }) *)
| EvRatingChanged (imageId : string)
    (* window.dispatchEvent(new CustomEvent('ratingChanged', ...)) *)
| EvLocalWrite (key : string) (store : Store)
    (* localStorage.setItem(key, JSON.stringify(store)) *)
| EvUsersDocSet (userName : string)
    (* db.collection("users").doc(name).set({ createdAt }, { merge: true }) *)
| EvRemoteSet (imageId userName value : string)
    (* ...doc(id).collection("ratings").doc(user).set({ value, updatedAt }, ...) *)
| EvRemoteDelete (imageId userName : string)
    (* ...doc(id).collection("ratings").doc(user).delete() *)
| EvRemoteGet (imageId : string)
    (* ...doc(id).collection("ratings").get() *)
| EvAwait
    (* a suspension point: what follows runs in a later task *)
| EvConsole (message : string).
    (* console.warn / console.error *)


Definition isNotify (e : Event) : bool :=
  match e with EvNotify _ _ _ => true | _ => false end.

(** *** The monad of module operations: state and an event trace *)

Definition M (A : Type) : Type := State → A * State * list Event.

Definition ret {A} (a : A) : M A := λ st, (a, st, []).
Definition bind {A B} (m : M A) (k : A → M B) : M B := λ st,
  let '(a, st1, t1) := m st in
  let '(b, st2, t2) := k a st1 in
  (b, st2, t1 ++ t2).
Definition gets {A} (f : State → A) : M A := λ st, (f st, st, []).
Definition modify (f : State → State) : M unit := λ st, (tt, f st, []).
Definition emit (e : Event) : M unit := λ st, (tt, st, [e]).

#[global] Instance M_ret : MRet M := @ret.
#[global] Instance M_bind : MBind M := λ A B k m, bind m k.

Definition resultOf {A} (r : A * State * list Event) : A := r.1.1.
Definition stateOf {A} (r : A * State * list Event) : State := r.1.2.
Definition traceOf {A} (r : A * State * list Event) : list Event := r.2.

Definition set_cache (f : gmap string VoteMap → gmap string VoteMap) (st : State) : State :=
  {| db := db st; currentUser := currentUser st; appUser := appUser st;
     localStorage := localStorage st; cache := f (cache st);
     watchers := watchers st; remote := remote st |}.
Definition set_watchers (f : gmap string (list Callback) → gmap string (list Callback))
    (st : State) : State :=
  {| db := db st; currentUser := currentUser st; appUser := appUser st;
     localStorage := localStorage st; cache := cache st;
     watchers := f (watchers st); remote := remote st |}.
Definition set_houseRatings (store : Store) (st : State) : State :=
  {| db := db st; currentUser := currentUser st; appUser := appUser st;
     localStorage := {| houseColorUser := houseColorUser (localStorage st);
                        houseRatings := Some store |};
     cache := cache st; watchers := watchers st; remote := remote st |}.
Definition set_remote (f : Remote → Remote) (st : State) : State :=
  {| db := db st; currentUser := currentUser st; appUser := appUser st;
     localStorage := localStorage st; cache := cache st;
     watchers := watchers st; remote := f (remote st) |}.

(** *** The module's functions *)

Definition normalizeText := JS.normalizeText.

(** A string operand of [||]: [null] and the empty string are falsy. *)
Definition truthy (o : option string) : option string :=
  match o with
  | Some s => if decide (s = "") then None else Some s
  | None => None
  end.

Definition resolveUser (st : State) : string :=
  match truthy (currentUser st) with
  | Some u => u
  | None =>
    match truthy (appUser st) with
    | Some u => u
    | None =>
      match truthy (houseColorUser (localStorage st)) with
      | Some u => u
      | None => "Guest"
      end
    end
  end.

Definition loadOfflineStore : M Store :=
  gets (λ st, default ∅ (houseRatings (localStorage st))).

Definition writeOfflineStore (store : Store) : M unit :=
  modify (set_houseRatings store);;
  emit (EvLocalWrite STORAGE_KEY store).

Definition getCachedRatings (st : State) (imageId : string) : VoteMap :=
  default ∅ (cache st !! imageId).

Definition notify (imageId : string) : M unit := λ st,
  match watchers st !! imageId with
  | None => (tt, st, [])
  | Some set =>
    let ratings := getCachedRatings st imageId in
    (tt, st, (λ fn, EvNotify imageId fn ratings) <$> set)
  end.

Definition setCachedRatings (imageId : string) (ratings : VoteMap) : M unit :=
  modify (set_cache <[imageId := ratings]>);;
  notify imageId.

(** The outcome of a call's remote operations, decided by the service. *)
Record Outcome := {
  usersDocOk : bool;   (* the write of users/{userName} succeeded *)
  writeOk : bool;      (* the set or delete of the rating cell succeeded *)
}.

Definition ensureUserDocument (userName : string) (ok : bool) : M unit :=
  hasDb ← gets db;
  if negb hasDb then ret tt else
  let name := normalizeText (Some userName) in
  if decide (name = "") then ret tt else
  emit (EvUsersDocSet name);;
  emit EvAwait;;
  if ok
  then modify (set_remote (λ r, {| images := images r; users := {[name]} ∪ users r |}))
  else emit (EvConsole "Ratings: could not write users doc").

(** [await ...doc(id).collection("ratings").doc(user).delete()];
    the result tells whether the promise was fulfilled. *)
Definition remoteDelete (id user : string) (ok : bool) : M bool :=
  emit (EvRemoteDelete id user);;
  emit EvAwait;;
  (if ok
   then modify (set_remote (λ r,
          {| images := <[id := delete user (default ∅ (images r !! id))]> (images r);
             users := users r |}))
   else ret tt);;
  ret ok.

(** [await ...doc(id).collection("ratings").doc(user).set({ value, updatedAt }, { merge: true })] *)
Definition remoteSet (id user value : string) (ok : bool) : M bool :=
  emit (EvRemoteSet id user value);;
  emit EvAwait;;
  (if ok
   then modify (set_remote (λ r,
          {| images := <[id := <[user := Some value]> (default ∅ (images r !! id))]> (images r);
             users := users r |}))
   else ret tt);;
  ret ok.

(** The local-record update that [setRating] performs both without a
    database and as the fallback of a failed remote write. The computed
    key [[user]: value] makes an own property under any name; the
    assignment [store[id] = ...] is an insertion for every id but
    [JS.protoKey]. *)
Definition applyDelta (store : Store) (id user value : string) (isToggleOff : bool)
    : Store :=
  if isToggleOff then
    (* if (store[id]) delete store[id][user] *)
    match store !! id with
    | Some ratings => <[id := delete user ratings]> store
    | None => store
    end
  else
    (* store[id] = { ...(store[id] || {}), [user]: value } *)
    <[id := <[user := value]> (default ∅ (store !! id))]> store.

Definition offlineUpdate (id user value : string) (isToggleOff : bool) : M unit :=
  store ← loadOfflineStore;
  writeOfflineStore (applyDelta store id user value isToggleOff).

(** [currentRatings[user] === value]: true of an own property with that
    value only (an inherited member is no string). *)
Definition toggleOff (currentRatings : VoteMap) (user value : string) : bool :=
  bool_decide (currentRatings !! user = Some value).

(** [const next = { ...currentRatings }], then [delete next[user]] or
    [next[user] = value]. The assignment is an insertion for every name
    but [JS.protoKey], under which it leaves [next] without an entry; the
    theorems on the caller's own cell are stated for the other names. *)
Definition nextRatings (currentRatings : VoteMap) (user value : string) : VoteMap :=
  if toggleOff currentRatings user value
  then delete user currentRatings
  else <[user := value]> currentRatings.

(** The tail of [setRating], from [if (!db)] on: the delta goes to the
    local record when there is no database, to the remote cell otherwise,
    and to the local record again when the remote write fails. *)
Definition persistDelta (id user value : string) (isToggleOff : bool) (o : Outcome)
    : M unit :=
  hasDb ← gets db;
  if negb hasDb then offlineUpdate id user value isToggleOff else
  ensureUserDocument user (usersDocOk o);;
  ok ← (if isToggleOff
        then remoteDelete id user (writeOk o)
        else remoteSet id user value (writeOk o));
  if (ok : bool) then ret tt else
  emit (EvConsole "Ratings: setRating failed, falling back to localStorage");;
  (* Fallback to localStorage when Firebase fails *)
  offlineUpdate id user value isToggleOff.

(** What [window.dispatchEvent] runs inside [setRating]: the
    [ratingChanged] listeners of the page, synchronously and with the id of
    the event. A listener is given by what it does to this module before
    it returns or first suspends. *)
Definition Listener := string → M unit.

(** A page on which nothing listens to [ratingChanged]. *)
Definition noListener : Listener := λ _, ret tt.

(** [setRating(imageId, rating)] on a page whose [ratingChanged]
    listeners are [listener]; an argument that is [null] or [undefined]
    behaves as the empty string. *)
Definition setRatingWith (listener : Listener) (imageId rating : string) (o : Outcome)
    : M unit :=
  let id := normalizeText (Some imageId) in
  let value := normalizeText (Some rating) in
  if decide (id = "") then ret tt else
  if negb (VALID_has value) then ret tt else
  user ← gets resolveUser;
  if decide (user = "") then ret tt else
  (* Check if toggling off (clicking same rating again) *)
  currentRatings ← gets (λ st, getCachedRatings st id);
  let isToggleOff := toggleOff currentRatings user value in
  (* Optimistic local update *)
  let next := nextRatings currentRatings user value in
  setCachedRatings id next;;
  (* Dispatch event so Gallery can clear its cache *)
  emit (EvRatingChanged id);;
  listener id;;
  persistDelta id user value isToggleOff o.

(** [setRating(imageId, rating)] when no listener is registered for the
    event. *)
Definition setRating (imageId rating : string) (o : Outcome) : M unit :=
  setRatingWith noListener imageId rating o.

(** A query snapshot: its documents, each with its id and its [value]
    field. *)
Definition Snapshot := list (string * option string).

(** The loop [snapshot.forEach(doc => { ... })] shared by [getRatings] and
    the live listener of [mountCard]. *)
Definition snapshotRatings (snapshot : Snapshot) : VoteMap :=
  foldl (λ (ratings : VoteMap) doc,
           let value := normalizeText doc.2 in
           if VALID_has value then <[doc.1 := value]> ratings else ratings)
        ∅ snapshot.

Definition remoteSnapshot (st : State) (id : string) : Snapshot :=
  map_to_list (default ∅ (images (remote st) !! id)).

Definition offlineRatings (id : string) : M VoteMap :=
  store ← loadOfflineStore;
  ret (default ∅ (store !! id)).

(** [readOk]: the remote [get()] was fulfilled. *)
Definition getRatings (imageId : string) (readOk : bool) : M VoteMap :=
  let id := normalizeText (Some imageId) in
  if decide (id = "") then ret ∅ else
  hasDb ← gets db;
  if negb hasDb then offlineRatings id else
  emit (EvRemoteGet id);;
  emit EvAwait;;
  if readOk then
    snapshot ← gets (λ st, remoteSnapshot st id);
    ret (snapshotRatings snapshot)
  else
    emit (EvConsole "Ratings: getRatings failed, falling back to localStorage");;
    (* Fallback to localStorage when Firebase fails *)
    offlineRatings id.

(** The function returned by [subscribeToRatings]: [() => {}] or the
    closure over [id] and [callback]. *)
Inductive Unsubscribe :=
| UnsubNoop
| Unsub (id : string) (callback : Callback).

(** [Set.prototype.add] and [Set.prototype.delete] on an ordered set. *)
Definition set_add (fn : Callback) (set : list Callback) : list Callback :=
  if decide (fn ∈ set) then set else set ++ [fn].
Definition set_delete (fn : Callback) (set : list Callback) : list Callback :=
  List.filter (λ g, negb (bool_decide (g = fn))) set.

(** What a [subscribeToRatings] call leaves behind: the unsubscribe
    function and, when the image had no cache entry, the id whose
    hydration ([getRatings(id).then(...)]) is pending; the pending part
    runs later, as [hydrate]. *)
Record Subscription := {
  unsubscribe : Unsubscribe;
  hydration : option string;
}.

(** [callback]: [None] when the argument is not a function. *)
Definition subscribeToRatings (imageId : string) (callback : option Callback)
    : M Subscription :=
  let id := normalizeText (Some imageId) in
  match callback with
  | None => ret {| unsubscribe := UnsubNoop; hydration := None |}
  | Some callback =>
    if decide (id = "") then ret {| unsubscribe := UnsubNoop; hydration := None |} else
    modify (set_watchers (λ w, <[id := set_add callback (default [] (w !! id))]> w));;
    (* Ensure callback receives current value ASAP. *)
    ratings ← gets (λ st, getCachedRatings st id);
    emit (EvNotify id callback ratings);;
    (* If we don't have a live listener yet, hydrate once. *)
    cached ← gets (λ st, cache st !! id);
    ret {| unsubscribe := Unsub id callback;
            hydration := if cached is Some _ then None else Some id |}
  end.

(** The pending hydration,
    [getRatings(id).then((ratings) => setCachedRatings(id, ratings))],
    when it resolves in the very state its read saw. *)
Definition hydrate (id : string) (readOk : bool) : M unit :=
  ratings ← getRatings id readOk;
  emit EvAwait;;
  setCachedRatings id ratings.

(** The pending hydration in general. [getRatings(id)] is called inside
    [subscribeToRatings], so its read is answered in an earlier state
    [stRead]: the state of the subscription when there is no database (the
    local record is read at once), the state in which the remote read is
    answered, or fails and the local record is read, when there is one.
    What runs when the promise resolves is [setCachedRatings(id, ratings)]
    alone. *)
Definition hydrateFrom (id : string) (readOk : bool) (stRead : State) : M unit :=
  let ratings := resultOf (getRatings id readOk stRead) in
  emit EvAwait;;
  setCachedRatings id ratings.

(** Calling the function returned by [subscribeToRatings]. *)
Definition callUnsubscribe (u : Unsubscribe) : M unit :=
  match u with
  | UnsubNoop => ret tt
  | Unsub id callback =>
    set ← gets (λ st, watchers st !! id);
    match set with
    | None => ret tt
    | Some set =>
      let set' := set_delete callback set in
      if decide (length set' = 0)
      then modify (set_watchers (delete id))
      else modify (set_watchers <[id := set']>)
    end
  end.

(** The listener that [mountCard] hands to [onSnapshot]: a snapshot of the
    image's remote cells replaces the cache entry and is fanned out. *)
Definition onSnapshot (id : string) (snapshot : Snapshot) : M unit :=
  setCachedRatings id (snapshotRatings snapshot).

(** [mountCard(cardEl, imageId)] for a card element that is there, as far
    as the module state goes: the subscription of the card's updater,
    [callback] standing for the closure
    [(ratings) => updateCardUI(cardEl, id, ratings)] made by this call. *)
Definition mountCard (imageId : string) (callback : Callback) : M Unsubscribe :=
  let id := normalizeText (Some imageId) in
  if decide (id = "") then ret UnsubNoop else
  sub ← subscribeToRatings id (Some callback);
  ret (unsubscribe sub).

(** [cleanupSubscriptions()] of the gallery and of the swatches page: each
    stored function, returned by an earlier [mountCard], is called. *)
Fixpoint cleanupSubscriptions (unsubscribers : list Unsubscribe) : M unit :=
  match unsubscribers with
  | [] => ret tt
  | unsub :: rest => callUnsubscribe unsub;; cleanupSubscriptions rest
  end.

(** The cards of a rendering, each mounted as it is created. *)
Fixpoint mountCards (cards : list (string * Callback)) : M unit :=
  match cards with
  | [] => ret tt
  | card :: rest => mountCard card.1 card.2;; mountCards rest
  end.

(** The [ratingChanged] listener of the swatches page while a filter
    other than "all" is active: [renderSwatches()] runs inside the
    dispatch, unsubscribes the cards shown so far and mounts the cards of
    the new rendering. The gallery's listener starts [renderGallery],
    which performs the same clean-up before it first suspends. *)
Definition rerender (unsubscribers : list Unsubscribe)
    (cards : list (string * Callback)) : Listener :=
  λ _, cleanupSubscriptions unsubscribers;; mountCards cards.

(** [init(firestore, userName)] *)
Definition init (firestore : bool) (userName : option string) (ok : bool) : M unit :=
  modify (λ st,
    {| db := firestore; currentUser := truthy userName; appUser := appUser st;
       localStorage := localStorage st; cache := cache st;
       watchers := watchers st; remote := remote st |});;
  user ← gets resolveUser;
  ensureUserDocument user ok.

(** The map [setRating] computes as [next] for a call made in [st]. *)
Definition optimistic (st : State) (imageId rating : string) : VoteMap :=
  nextRatings (getCachedRatings st (normalizeText (Some imageId)))
              (resolveUser st) (normalizeText (Some rating)).

(** The persistence tail of that call, started once the cache holds
    [next]. *)
Definition setRatingTail (imageId rating : string) (o : Outcome) (st : State)
    : unit * State * list Event :=
  let id := normalizeText (Some imageId) in
  let value := normalizeText (Some rating) in
  persistDelta id (resolveUser st) value
    (toggleOff (getCachedRatings st id) (resolveUser st) value) o
    (set_cache <[id := optimistic st imageId rating]> st).

(** The notifications [notify] delivers for an image when its cached map
    is [ratings]: one call per registered watcher, in registration order. *)
Definition fanOut (st : State) (id : string) (ratings : VoteMap) : list Event :=
  (λ fn, EvNotify id fn ratings) <$> default [] (watchers st !! id).

(** What the [forEach] loop keeps of one remote cell. *)
Definition validCell (raw : option string) : option string :=
  let value := normalizeText raw in
  if VALID_has value then Some value else None.

(** One (image, voter) cell of the remote store. *)
Definition remoteCell (st : State) (id user : string) : option (option string) :=
  images (remote st) !! id ≫= (λ cells, cells !! user).

(** One (image, voter) cell of a store: [store[id]?.[user]]. *)
Definition cellOf (store : Store) (id user : string) : option string :=
  store !! id ≫= (λ ratings, ratings !! user).

(** The local record as [loadOfflineStore] reads it. *)
Definition offlineStore (st : State) : Store :=
  default ∅ (houseRatings (localStorage st)).

(** The voter's cell in the cached map of an image. *)
Definition cachedVote (st : State) (id user : string) : option string :=
  getCachedRatings st id !! user.

(** The module as loaded: no database, no user, empty cache and registry. *)
Definition loaded (app : option string) (ls : LocalStorage) (r : Remote) : State :=
  {| db := false; currentUser := None; appUser := app; localStorage := ls;
     cache := ∅; watchers := ∅; remote := r |}.

(** Sample states: the module as loaded with nothing stored anywhere,
    and the same with a database installed. *)
Definition offline0 : State :=
  loaded None {| houseColorUser := None; houseRatings := None |}
         {| images := ∅; users := ∅ |}.
Definition online0 : State := stateOf (init true None true offline0).
Definition allOk : Outcome := {| usersDocOk := true; writeOk := true |}.
Definition writeFails : Outcome := {| usersDocOk := true; writeOk := false |}.

(** A state in which voter Guest already likes img1. *)
Definition guestLikes : State :=
  stateOf (setRating "img1" "like" allOk online0).

(** A state with a database whose local record holds a vote by Ann. *)
Definition annLocal : State :=
  stateOf (init true None true
    (loaded None
       {| houseColorUser := None;
          houseRatings := Some {[ "img1" := {[ "Ann" := "like" ]} ]} |}
       {| images := ∅; users := ∅ |})).

(** Guest likes img1 while callbacks 7 and 9 watch the image. *)
Definition watched : State :=
  stateOf (subscribeToRatings "img1" (Some 9)
    (stateOf (subscribeToRatings "img1" (Some 7) guestLikes))).

(** The registry once [callback] is taken out of the set of [id]. *)
Definition withoutWatcher (id : string) (callback : Callback)
    (w : gmap string (list Callback)) : gmap string (list Callback) :=
  match w !! id with
  | None => w
  | Some set =>
    if decide (length (set_delete callback set) = 0)
    then delete id w
    else <[id := set_delete callback set]> w
  end.

(** The loop over the rating buttons of [updateCardUI]: whether the button
    whose [data-rating] attribute is [dataRating] ([None] when the
    attribute is missing) gets [aria-pressed="true"] when the card is
    updated with [ratings]. *)
Definition buttonActive (st : State) (ratings : VoteMap) (dataRating : option string)
    : bool :=
  let user := resolveUser st in
  (* const myRating = ratings?.[user] || "": the empty string when the
     read is falsy, what was read otherwise *)
  let myRating := JS.get ratings user in
  let value := normalizeText dataRating in
  (* const isActive = value && value === myRating *)
  negb (bool_decide (value = "")) && JS.same myRating value.

(** How many times a trace calls watcher [fn] for image [id]. *)
Definition timesNotified (id : string) (fn : Callback) (trace : list Event) : nat :=
  length (List.filter
            (λ e, match e with
                  | EvNotify k g _ => bool_decide (k = id ∧ g = fn)
                  | _ => false
                  end) trace).

(** A well-formed registry: no blank key, no empty set, no callback twice
    in a set. *)
Definition registryOk (w : gmap string (list Callback)) : Prop :=
  ∀ id set, w !! id = Some set → id ≠ "" ∧ set ≠ [] ∧ NoDup set.

(** The state in which [setRating] dispatches [ratingChanged]: the cache
    holds the new map of the image. *)
Definition dispatched (st : State) (imageId rating : string) : State :=
  set_cache <[normalizeText (Some imageId) := optimistic st imageId rating]> st.

(** What the listeners do during that dispatch. *)
Definition heard (listener : Listener) (st : State) (imageId rating : string)
    : unit * State * list Event :=
  listener (normalizeText (Some imageId)) (dispatched st imageId rating).

(** The persistence tail of a call with listeners: it starts in the state
    the listeners leave, with the voter and the toggle decided before the
    dispatch. *)
Definition persisted (listener : Listener) (imageId rating : string) (o : Outcome)
    (st : State) : unit * State * list Event :=
  let id := normalizeText (Some imageId) in
  let value := normalizeText (Some rating) in
  persistDelta id (resolveUser st) value
    (toggleOff (getCachedRatings st id) (resolveUser st) value) o
    (stateOf (heard listener st imageId rating)).

(** Two states that differ in the watcher registry at most. *)
Definition sameButWatchers (st' st : State) : Prop :=
  cache st' = cache st ∧ localStorage st' = localStorage st
  ∧ remote st' = remote st ∧ db st' = db st
  ∧ currentUser st' = currentUser st ∧ appUser st' = appUser st.

(** A listener that touches nothing of the module but the watcher
    registry, as the listeners of the gallery and of the swatches page do
    inside the dispatch. *)
Definition watchersOnly (listener : Listener) : Prop :=
  ∀ id st, sameButWatchers (stateOf (listener id st)) st.

(** A listener that keeps the registry well formed. *)
Definition keepsRegistry (listener : Listener) : Prop :=
  ∀ id st, registryOk (watchers st) →
           registryOk (watchers (stateOf (listener id st))).

End Ratings.

(** * Properties *)

(** ** Aggregation: classification and score *)

Section Aggregation.

Import Results.

Lemma values_length {A} (o : gmap string A) : length (JS.values o) = size o.
Proof. unfold JS.values. by rewrite length_fmap, length_map_to_list. Qed.

(** The code's cascade and the specification's agree on every vote map. *)
Lemma categorizeImage_spec (ratings : gmap string string) :
  categorizeImage (Some ratings)
  = classify_spec (size ratings)
      (JS.countEq "like" (JS.values ratings))
      (JS.countEq "dislike" (JS.values ratings)).
Proof.
  unfold categorizeImage, classify_spec. simpl.
  rewrite values_length.
  generalize (JS.countEq "like" (JS.values ratings)) as l.
  generalize (JS.countEq "dislike" (JS.values ratings)) as d.
  intros d l.
  repeat match goal with
         | |- context [(?a <? ?b)%nat] => destruct (Nat.ltb_spec a b)
         | |- context [(?a =? ?b)%nat] => destruct (Nat.eqb_spec a b)
         end; simpl; repeat case_decide; try done; lia.
Qed.

(** C1. [categorizeImage] is a total function on vote maps that applies
    the four rules in order: fewer than two votes is unrated; otherwise a
    like and no dislike is consensus; otherwise more dislikes than likes
    is rejected; otherwise a like and a dislike is controversial; every
    other map is unrated. The six sample maps of the specification get
    the categories it lists. *)
Theorem categorizeImage_total_ordered :
  (∀ ratings : gmap string string,
     let total := size ratings in
     let likes := JS.countEq "like" (JS.values ratings) in
     let dislikes := JS.countEq "dislike" (JS.values ratings) in
     categorizeImage (Some ratings) = classify_spec total likes dislikes
     ∧ (total < 2 → categorizeImage (Some ratings) = unrated)
     ∧ (2 ≤ total → 1 ≤ likes ∧ dislikes = 0 →
        categorizeImage (Some ratings) = consensus)
     ∧ (2 ≤ total → ¬ (1 ≤ likes ∧ dislikes = 0) → likes < dislikes →
        categorizeImage (Some ratings) = rejected)
     ∧ (2 ≤ total → ¬ (1 ≤ likes ∧ dislikes = 0) → ¬ likes < dislikes →
        1 ≤ likes ∧ 1 ≤ dislikes →
        categorizeImage (Some ratings) = controversial)
     ∧ (2 ≤ total → ¬ (1 ≤ likes ∧ dislikes = 0) → ¬ likes < dislikes →
        ¬ (1 ≤ likes ∧ 1 ≤ dislikes) →
        categorizeImage (Some ratings) = unrated))
  ∧ categorizeImage None = unrated
  ∧ categorizeImage (Some ∅) = unrated
  ∧ categorizeImage (Some {[ "a" := "like" ]}) = unrated
  ∧ categorizeImage (Some {[ "a" := "like"; "b" := "like" ]}) = consensus
  ∧ categorizeImage (Some {[ "a" := "like"; "b" := "dislike" ]}) = controversial
  ∧ categorizeImage (Some {[ "a" := "dislike"; "b" := "dislike" ]}) = rejected
  ∧ categorizeImage (Some {[ "a" := "dislike"; "b" := "like"; "c" := "dislike" ]})
    = rejected
  ∧ categorizeImage (Some {[ "a" := "unsure"; "b" := "unsure" ]}) = unrated.
Proof.
  split; [|by vm_compute].
  intros ratings total likes dislikes.
  rewrite categorizeImage_spec. fold total likes dislikes.
  unfold classify_spec.
  split; [done|].
  repeat split; intros; repeat case_decide; first [done | lia | tauto].
Qed.

Import Swatches.

(** The tier of a swatch is decided by its score alone, and a swatch
    stands under at most one header. *)
Lemma tiersOf_score (s : Swatch) :
  tiersOf s =
    if decide (5 ≤ scoreOf s)%Z then ["⭐ Favorites"]
    else if decide (scoreOf s = 4)%Z then ["👍 Strong"]
    else if decide (scoreOf s = 3)%Z then ["👀 Promising"]
    else if decide (1 ≤ scoreOf s)%Z then ["🤔 Controversial"]
    else [].
Proof.
  unfold tiersOf, tiers, inTier. simpl.
  generalize (scoreOf s) as z. intros z.
  repeat match goal with
         | |- context [(?a <=? ?b)%Z] => destruct (Z.leb_spec a b)
         end; simpl; repeat case_decide; first [done | lia].
Qed.

Lemma insertSorted_Permutation (a : Swatch) (l : list Swatch) :
  insertSorted a l ≡ₚ a :: l.
Proof.
  induction l as [|b l IH]; [done|]. simpl. case_decide; [done|].
  rewrite IH. apply Permutation_swap.
Qed.

Lemma sortSwatches_Permutation (l : list Swatch) : sortSwatches l ≡ₚ l.
Proof.
  induction l as [|a l IH]; [done|]. simpl.
  by rewrite insertSorted_Permutation, IH.
Qed.

Lemma applyLikesFilter_elem (swatches : list Swatch) (filter : string) (s : Swatch) :
  s ∈ applyLikesFilter swatches filter ↔ s ∈ swatches ∧ keeps filter s = true.
Proof.
  unfold applyLikesFilter.
  rewrite sortSwatches_Permutation.
  rewrite !list_elem_of_In, filter_In. done.
Qed.

(** Witness for C1: the consensus rule at a map of two likes. *)
Lemma categorizeImage_total_ordered_witness :
  categorizeImage (Some {[ "a" := "like"; "b" := "like" ]}) = consensus.
Proof.
  apply (proj1 categorizeImage_total_ordered {[ "a" := "like"; "b" := "like" ]}).
  - vm_compute. lia.
  - vm_compute. split; [lia | reflexivity].
Defined.

End Aggregation.

(** ** The rating cache and sync engine *)

Section RatingsProps.

Import Ratings.

Lemma truthy_nonempty o u : truthy o = Some u → u ≠ "".
Proof. destruct o as [s|]; simpl; [|done]. case_decide; naive_solver. Qed.

Lemma resolveUser_nonempty st : resolveUser st ≠ "".
Proof.
  unfold resolveUser.
  repeat match goal with
         | |- context [truthy ?o] =>
           let E := fresh "E" in
           destruct (truthy o) eqn:E; [by eapply truthy_nonempty|]
         end.
  done.
Qed.

Arguments normalizeText : simpl never.
Arguments JS.normalizeText : simpl never.

Ltac run_monad :=
  unfold mbind, M_bind, mret, M_ret, bind, ret, gets, modify, emit; cbn.

Ltac unfold_persist :=
  unfold persistDelta, offlineUpdate, ensureUserDocument, remoteDelete,
    remoteSet, writeOfflineStore, loadOfflineStore.

(** The persistence tail leaves everything but the local record and the
    remote store alone. *)
Lemma persistDelta_frame id user value isToggleOff o st :
  let st' := stateOf (persistDelta id user value isToggleOff o st) in
  cache st' = cache st ∧ watchers st' = watchers st ∧ db st' = db st
  ∧ currentUser st' = currentUser st ∧ appUser st' = appUser st
  ∧ houseColorUser (localStorage st') = houseColorUser (localStorage st).
Proof.
  unfold_persist.
  destruct st as [d cu au ls c w r], o as [uo wo], d, uo, wo, isToggleOff;
    run_monad; try done; destruct (decide _); done.
Qed.

Lemma persistDelta_no_notify id user value isToggleOff o st :
  Forall (λ e, isNotify e = false)
         (traceOf (persistDelta id user value isToggleOff o st)).
Proof.
  unfold_persist.
  destruct st as [d cu au ls c w r], o as [uo wo], d, uo, wo, isToggleOff;
    run_monad; try destruct (decide _); cbn;
    repeat (apply Forall_cons; split; [done|]); apply Forall_nil_2.
Qed.

Lemma setCachedRatings_run id ratings st :
  setCachedRatings id ratings st
  = (tt, set_cache <[id := ratings]> st, fanOut st id ratings).
Proof.
  unfold setCachedRatings, notify, fanOut, getCachedRatings. run_monad.
  rewrite lookup_insert_eq.
  destruct (watchers st !! id); done.
Qed.

(** A call that passes the guards: the optimistic update, the event, then
    the persistence tail. *)
Lemma setRating_valid imageId rating o st :
  normalizeText (Some imageId) ≠ "" →
  VALID_has (normalizeText (Some rating)) = true →
  setRating imageId rating o st
  = (tt, stateOf (setRatingTail imageId rating o st),
     fanOut st (normalizeText (Some imageId)) (optimistic st imageId rating)
     ++ EvRatingChanged (normalizeText (Some imageId))
     :: traceOf (setRatingTail imageId rating o st)).
Proof.
  intros Hid Hv.
  unfold setRating, setRatingWith, noListener.
  rewrite decide_False by done. rewrite Hv.
  change (negb true) with false.
  unfold mbind, M_bind, bind, gets, ret. cbv beta iota zeta.
  rewrite decide_False by apply resolveUser_nonempty.
  rewrite setCachedRatings_run. unfold emit. cbv beta iota zeta.
  fold (optimistic st imageId rating).
  change (persistDelta _ _ _ _ _ _) with (setRatingTail imageId rating o st).
  destruct (setRatingTail imageId rating o st) as [[[] st2] t2]. done.
Qed.

Lemma setRating_invalid imageId rating o st :
  VALID_has (normalizeText (Some rating)) = false →
  setRating imageId rating o st = (tt, st, []).
Proof.
  intros Hv. unfold setRating, setRatingWith. rewrite Hv. by case_decide.
Qed.

Lemma setRating_blank imageId rating o st :
  normalizeText (Some imageId) = "" → setRating imageId rating o st = (tt, st, []).
Proof. intros Hid. unfold setRating, setRatingWith. by rewrite decide_True. Qed.

(** A call that passes the guards on a page with listeners: the
    optimistic update, the event, the listeners, then the persistence
    tail. *)
Lemma setRatingWith_valid listener imageId rating o st :
  normalizeText (Some imageId) ≠ "" →
  VALID_has (normalizeText (Some rating)) = true →
  setRatingWith listener imageId rating o st
  = (tt, stateOf (persisted listener imageId rating o st),
     fanOut st (normalizeText (Some imageId)) (optimistic st imageId rating)
     ++ EvRatingChanged (normalizeText (Some imageId))
     :: traceOf (heard listener st imageId rating)
     ++ traceOf (persisted listener imageId rating o st)).
Proof.
  intros Hid Hv.
  unfold setRatingWith.
  rewrite decide_False by done. rewrite Hv.
  change (negb true) with false.
  unfold mbind, M_bind, bind, gets. cbv beta iota zeta.
  rewrite decide_False by apply resolveUser_nonempty.
  rewrite setCachedRatings_run. unfold emit. cbv beta iota zeta.
  fold (optimistic st imageId rating).
  unfold persisted, heard, dispatched.
  destruct (listener _ _) as [[[] s2] t2].
  change (stateOf ((), s2, t2)) with s2. change (traceOf ((), s2, t2)) with t2.
  destruct (persistDelta _ _ _ _ _ s2) as [[[] s3] t3]. done.
Qed.

Lemma setRatingWith_skipped listener imageId rating o st :
  normalizeText (Some imageId) = ""
  ∨ VALID_has (normalizeText (Some rating)) = false →
  setRatingWith listener imageId rating o st = (tt, st, []).
Proof.
  intros [Hid|Hv]; unfold setRatingWith.
  - by rewrite decide_True.
  - rewrite Hv. by case_decide.
Qed.

(** The persistence tail of a call with listeners leaves the cache and
    the registry as the listeners left them. *)
Lemma persisted_frame listener imageId rating o st :
  let s2 := stateOf (heard listener st imageId rating) in
  let st' := stateOf (persisted listener imageId rating o st) in
  cache st' = cache s2 ∧ watchers st' = watchers s2 ∧ db st' = db s2
  ∧ currentUser st' = currentUser s2 ∧ appUser st' = appUser s2
  ∧ houseColorUser (localStorage st') = houseColorUser (localStorage s2).
Proof. apply persistDelta_frame. Qed.

Lemma setRatingTail_frame imageId rating o st :
  let st' := stateOf (setRatingTail imageId rating o st) in
  cache st' = <[normalizeText (Some imageId) := optimistic st imageId rating]> (cache st)
  ∧ watchers st' = watchers st ∧ db st' = db st
  ∧ currentUser st' = currentUser st ∧ appUser st' = appUser st
  ∧ houseColorUser (localStorage st') = houseColorUser (localStorage st).
Proof. apply persistDelta_frame. Qed.

(** Three ways a call can go; in each, what is left of the state. *)
Lemma setRating_cases imageId rating o st :
  setRating imageId rating o st = (tt, st, [])
  ∨ (normalizeText (Some imageId) ≠ ""
     ∧ VALID_has (normalizeText (Some rating)) = true
     ∧ stateOf (setRating imageId rating o st)
       = stateOf (setRatingTail imageId rating o st)).
Proof.
  destruct (decide (normalizeText (Some imageId) = "")) as [Hid|Hid];
    [left; by apply setRating_blank|].
  destruct (VALID_has (normalizeText (Some rating))) eqn:Hv;
    [|left; by apply setRating_invalid].
  right. by rewrite setRating_valid.
Qed.

Lemma setRating_resolveUser imageId rating o st :
  resolveUser (stateOf (setRating imageId rating o st)) = resolveUser st.
Proof.
  destruct (setRating_cases imageId rating o st) as [->|(_ & _ & ->)]; [done|].
  destruct (setRatingTail_frame imageId rating o st) as (_ & _ & _ & Hcu & Hau & Hls).
  unfold resolveUser. by rewrite Hcu, Hau, Hls.
Qed.

(** The cache after a call that passes the guards. *)
Lemma setRating_cache imageId rating o st :
  normalizeText (Some imageId) ≠ "" →
  VALID_has (normalizeText (Some rating)) = true →
  cache (stateOf (setRating imageId rating o st))
  = <[normalizeText (Some imageId) := optimistic st imageId rating]> (cache st).
Proof.
  intros Hid Hv. rewrite setRating_valid by done.
  apply setRatingTail_frame.
Qed.

Lemma nextRatings_own current user value :
  nextRatings current user value !! user
  = if decide (current !! user = Some value) then None else Some value.
Proof.
  unfold nextRatings, toggleOff.
  case_bool_decide; case_decide; try done.
  - apply lookup_delete_eq.
  - apply lookup_insert_eq.
Qed.

Lemma nextRatings_other current user value u :
  u ≠ user → nextRatings current user value !! u = current !! u.
Proof.
  intros Hne. unfold nextRatings.
  destruct (toggleOff current user value).
  - by apply lookup_delete_ne.
  - by apply lookup_insert_ne.
Qed.

(** One call toggles the caller's cell between [value] and no entry. *)
Lemma setRating_own_cell imageId rating o st :
  normalizeText (Some imageId) ≠ "" →
  VALID_has (normalizeText (Some rating)) = true →
  cachedVote (stateOf (setRating imageId rating o st))
    (normalizeText (Some imageId)) (resolveUser st)
  = if decide (cachedVote st (normalizeText (Some imageId)) (resolveUser st)
               = Some (normalizeText (Some rating)))
    then None else Some (normalizeText (Some rating)).
Proof.
  intros Hid Hv. unfold cachedVote at 1. unfold getCachedRatings at 1.
  rewrite setRating_cache by done. rewrite lookup_insert_eq. simpl.
  apply nextRatings_own.
Qed.

(** C5. A call whose vote, once trimmed, is not one of like, unsure,
    dislike is a complete no-op: it returns normally, the whole state
    (cache, local record, remote store, registry) is unchanged, and the
    trace is empty: no watcher is notified and no ratingChanged event is
    dispatched. *)
Theorem setRating_invalid_vote_noop imageId rating o st :
  VALID_has (normalizeText (Some rating)) = false →
  setRating imageId rating o st = (tt, st, [])
  ∧ cache (stateOf (setRating imageId rating o st)) = cache st
  ∧ localStorage (stateOf (setRating imageId rating o st)) = localStorage st
  ∧ remote (stateOf (setRating imageId rating o st)) = remote st
  ∧ Forall (λ e, isNotify e = false ∧ e ≠ EvRatingChanged (normalizeText (Some imageId)))
           (traceOf (setRating imageId rating o st)).
Proof.
  intros Hv. rewrite setRating_invalid by done. by repeat split.
Qed.

Lemma setRating_invalid_vote_noop_witness :
  setRating "img1" " love " allOk online0 = (tt, online0, []).
Proof.
  apply (setRating_invalid_vote_noop "img1" " love " allOk online0).
  vm_compute. reflexivity.
Defined.

(** C9. A call made as voter A leaves every other voter's cell, in the
    cached map of every image, exactly as it was: present with the same
    vote, or absent. *)
Theorem setRating_voter_isolation imageId rating o st k u :
  u ≠ resolveUser st →
  cachedVote (stateOf (setRating imageId rating o st)) k u = cachedVote st k u.
Proof.
  intros Hu.
  destruct (setRating_cases imageId rating o st) as [->|(Hid & Hv & _)]; [done|].
  unfold cachedVote, getCachedRatings. rewrite setRating_cache by done.
  destruct (decide (k = normalizeText (Some imageId))) as [->|Hk].
  - rewrite lookup_insert_eq. simpl. unfold optimistic.
    by rewrite nextRatings_other.
  - by rewrite lookup_insert_ne.
Qed.

Lemma setRating_voter_isolation_witness :
  cachedVote (stateOf (setRating "img1" "like" allOk
                (stateOf (init true (Some "Ann") true
                   (stateOf (setRating "img1" "dislike" allOk online0))))))
             "img1" "Guest"
  = Some "dislike".
Proof.
  rewrite (setRating_voter_isolation "img1" "like" allOk
             (stateOf (init true (Some "Ann") true
                (stateOf (setRating "img1" "dislike" allOk online0))))
             "img1" "Guest").
  - vm_compute. reflexivity.
  - vm_compute. discriminate.
Defined.

(** The claim as worded fails when the voter already holds the vote: the
    first call retracts it, the second casts it again. *)
Lemma setRating_twice_from_voted :
  ¬ (∀ st imageId rating o1 o2 o3,
       VALID_has (normalizeText (Some rating)) = true →
       cachedVote
         (stateOf (setRating imageId rating o2
            (stateOf (setRating imageId rating o1 st))))
         (normalizeText (Some imageId)) (resolveUser st)
       = None
       ∧ cachedVote
           (stateOf (setRating imageId rating o3
              (stateOf (setRating imageId rating o2
                 (stateOf (setRating imageId rating o1 st))))))
           (normalizeText (Some imageId)) (resolveUser st)
         = Some (normalizeText (Some rating))).
Proof.
  intros H.
  destruct (H guestLikes "img1" "like" allOk allOk allOk eq_refl) as [H2 _].
  vm_compute in H2. discriminate.
Qed.

Example setRating_twice_from_voted_run :
  cachedVote guestLikes "img1" "Guest" = Some "like"
  ∧ cachedVote (stateOf (setRating "img1" "like" allOk guestLikes)) "img1" "Guest"
    = None
  ∧ cachedVote
      (stateOf (setRating "img1" "like" allOk
         (stateOf (setRating "img1" "like" allOk guestLikes)))) "img1" "Guest"
    = Some "like".
Proof. repeat split; vm_compute; reflexivity. Qed.

(** C2, amended. For an image id that is not blank, a voter whose name
    is not the reserved property name [__proto__] (an assignment
    [next[user] = value] under that name creates no entry), and a valid
    vote [v]: from a cache in which the caller's cell for the image is not
    already [v], the cell is [v] after one call, the caller has no entry
    after two calls, and the cell is [v] again after three; from a cache
    in which the cell is already [v] the same cycle runs one step ahead:
    no entry, [v], no entry. *)
Theorem setRating_toggle_cycle imageId rating o1 o2 o3 st :
  let id := normalizeText (Some imageId) in
  let v := normalizeText (Some rating) in
  let A := resolveUser st in
  let st1 := stateOf (setRating imageId rating o1 st) in
  let st2 := stateOf (setRating imageId rating o2 st1) in
  let st3 := stateOf (setRating imageId rating o3 st2) in
  id ≠ "" →
  VALID_has v = true →
  A ≠ JS.protoKey →
  (cachedVote st id A ≠ Some v →
   cachedVote st1 id A = Some v
   ∧ cachedVote st2 id A = None
   ∧ cachedVote st3 id A = Some v)
  ∧ (cachedVote st id A = Some v →
     cachedVote st1 id A = None
     ∧ cachedVote st2 id A = Some v
     ∧ cachedVote st3 id A = None).
Proof.
  intros id v A st1 st2 st3 Hid Hv _.
  assert (HA1 : resolveUser st1 = A) by apply setRating_resolveUser.
  assert (HA2 : resolveUser st2 = A).
  { unfold st2. by rewrite setRating_resolveUser. }
  assert (H1 : cachedVote st1 id A
               = if decide (cachedVote st id A = Some v) then None else Some v).
  { unfold st1, id, A. by rewrite setRating_own_cell. }
  assert (H2 : cachedVote st2 id A
               = if decide (cachedVote st1 id A = Some v) then None else Some v).
  { unfold st2, id. rewrite <- HA1. rewrite setRating_own_cell by done.
    by rewrite HA1. }
  assert (H3 : cachedVote st3 id A
               = if decide (cachedVote st2 id A = Some v) then None else Some v).
  { unfold st3, id. rewrite <- HA2. rewrite setRating_own_cell by done.
    by rewrite HA2. }
  split; intros H0.
  - rewrite decide_False in H1 by done.
    rewrite H1, decide_True in H2 by done.
    rewrite H2, decide_False in H3 by done. done.
  - rewrite decide_True in H1 by done.
    rewrite H1, decide_False in H2 by done.
    rewrite H2, decide_True in H3 by done. done.
Qed.

Lemma setRating_toggle_cycle_witness :
  cachedVote (stateOf (setRating " img1" "like" allOk online0)) "img1" "Guest"
  = Some "like"
  ∧ cachedVote
      (stateOf (setRating " img1" "like" writeFails
         (stateOf (setRating " img1" "like" allOk online0)))) "img1" "Guest"
    = None
  ∧ cachedVote
      (stateOf (setRating " img1" "like" allOk
         (stateOf (setRating " img1" "like" writeFails
            (stateOf (setRating " img1" "like" allOk online0))))))
      "img1" "Guest"
    = Some "like".
Proof.
  apply (setRating_toggle_cycle " img1" "like" allOk writeFails allOk online0).
  - vm_compute. discriminate.
  - vm_compute. reflexivity.
  - vm_compute. discriminate.
  - vm_compute. discriminate.
Defined.




(** *** Reads *)

Lemma getRatings_fallback imageId st :
  getRatings imageId false st
  = (if decide (normalizeText (Some imageId) = "") then ∅
     else default ∅ (offlineStore st !! normalizeText (Some imageId)),
     st,
     if decide (normalizeText (Some imageId) = "") then []
     else if db st
     then [EvRemoteGet (normalizeText (Some imageId)); EvAwait;
           EvConsole "Ratings: getRatings failed, falling back to localStorage"]
     else []).
Proof.
  unfold getRatings, offlineRatings, loadOfflineStore, offlineStore.
  case_decide; [done|].
  run_monad. by destruct (db st).
Qed.

(** The claim as worded fails when the local record holds votes for the
    image: the failed read is answered from that record. *)
Lemma getRatings_failure_not_empty :
  ¬ (∀ st imageId, db st = true → resultOf (getRatings imageId false st) = ∅).
Proof.
  intros H. specialize (H annLocal "img1" eq_refl).
  apply (f_equal (λ m : VoteMap, m !! "Ann")) in H.
  vm_compute in H. discriminate.
Qed.

Example getRatings_failure_reads_local :
  resultOf (getRatings "img1" false annLocal) = {[ "Ann" := "like" ]}
  ∧ traceOf (getRatings "img1" false annLocal)
    = [ EvRemoteGet "img1"; EvAwait;
        EvConsole "Ratings: getRatings failed, falling back to localStorage" ].
Proof. repeat split; vm_compute; reflexivity. Qed.

(** C6, amended. A [getRatings] call whose backend read fails does not
    throw: it logs the failure to the console, returns a copy of what the
    local record holds for the image, and leaves the state as it was. The
    result is the empty map exactly when the id is blank, or the record
    has no entry for the image, or an empty one. *)
Theorem getRatings_read_failure_local imageId st :
  let id := normalizeText (Some imageId) in
  let failed := EvConsole "Ratings: getRatings failed, falling back to localStorage" in
  resultOf (getRatings imageId false st)
  = (if decide (id = "") then ∅ else default ∅ (offlineStore st !! id))
  ∧ stateOf (getRatings imageId false st) = st
  ∧ (db st = true → id ≠ "" →
     traceOf (getRatings imageId false st) = [EvRemoteGet id; EvAwait; failed])
  ∧ (resultOf (getRatings imageId false st) = ∅
     ↔ id = "" ∨ offlineStore st !! id = None ∨ offlineStore st !! id = Some ∅).
Proof.
  intros id failed. rewrite getRatings_fallback. fold id.
  unfold resultOf, stateOf, traceOf. cbn [fst snd].
  split; [done|]. split; [done|]. split.
  - intros -> Hid. by rewrite decide_False.
  - case_decide as Hid; [by split; [left|]|].
    destruct (offlineStore st !! id) as [cells|]; simpl.
    + split; [intros ->; by right; right|].
      intros [?|[?|?]]; by simplify_eq.
    + split; [by right; left|done].
Qed.

Lemma getRatings_read_failure_local_witness :
  traceOf (getRatings "img2" false annLocal)
  = [ EvRemoteGet "img2"; EvAwait;
      EvConsole "Ratings: getRatings failed, falling back to localStorage" ].
Proof.
  apply (proj1 (proj2 (proj2 (getRatings_read_failure_local "img2" annLocal)))).
  - vm_compute. reflexivity.
  - vm_compute. discriminate.
Defined.

(** *** Write failure and the local record *)

Lemma applyDelta_cell store id user value isToggleOff :
  cellOf (applyDelta store id user value isToggleOff) id user
  = if isToggleOff then None else Some value.
Proof.
  unfold cellOf, applyDelta. destruct isToggleOff.
  - destruct (store !! id) as [ratings|] eqn:E.
    + rewrite lookup_insert_eq. simpl. apply lookup_delete_eq.
    + by rewrite E.
  - rewrite lookup_insert_eq. simpl. apply lookup_insert_eq.
Qed.

Lemma applyDelta_other store id user value isToggleOff k u :
  (k, u) ≠ (id, user) →
  cellOf (applyDelta store id user value isToggleOff) k u = cellOf store k u.
Proof.
  intros Hne. unfold cellOf, applyDelta.
  destruct (decide (k = id)) as [->|Hk].
  - assert (u ≠ user) by congruence.
    destruct isToggleOff.
    + destruct (store !! id) as [ratings|] eqn:E; [|by rewrite E].
      rewrite lookup_insert_eq. simpl. by apply lookup_delete_ne.
    + rewrite lookup_insert_eq. simpl.
      rewrite lookup_insert_ne by done.
      by destruct (store !! id).
  - destruct isToggleOff; [destruct (store !! id)|];
      by rewrite ?lookup_insert_ne.
Qed.

(** With a database whose rating write fails, the tail writes the delta
    to the local record and leaves the remote cells alone. *)
Lemma persistDelta_write_failed id user value isToggleOff o st :
  db st = true → writeOk o = false →
  let r := persistDelta id user value isToggleOff o st in
  houseRatings (localStorage (stateOf r))
  = Some (applyDelta (offlineStore st) id user value isToggleOff)
  ∧ images (remote (stateOf r)) = images (remote st)
  ∧ last (traceOf r)
    = Some (EvLocalWrite STORAGE_KEY
              (applyDelta (offlineStore st) id user value isToggleOff)).
Proof.
  unfold_persist. unfold offlineStore.
  destruct st as [d cu au ls c w r], o as [uo wo]. simpl.
  intros -> ->.
  destruct uo, isToggleOff; run_monad; destruct (decide _); done.
Qed.

(** The claim as worded fails when the read after the failed write
    succeeds: [getRatings] then answers from the remote cells, which the
    failed write never reached. *)
Lemma getRatings_after_failed_write :
  ¬ (∀ st imageId rating o readOk,
       normalizeText (Some imageId) ≠ "" →
       VALID_has (normalizeText (Some rating)) = true →
       db st = true → writeOk o = false →
       resultOf (getRatings imageId readOk (stateOf (setRating imageId rating o st)))
         !! resolveUser st
       = cachedVote (stateOf (setRating imageId rating o st))
           (normalizeText (Some imageId)) (resolveUser st)).
Proof.
  intros H.
  assert (Hid : normalizeText (Some "img1") ≠ "") by (vm_compute; discriminate).
  specialize (H online0 "img1" "like" writeFails true Hid eq_refl eq_refl eq_refl).
  vm_compute in H. discriminate.
Qed.

Example getRatings_after_failed_write_run :
  cachedVote (stateOf (setRating "img1" "like" writeFails online0)) "img1" "Guest"
  = Some "like"
  ∧ offlineStore (stateOf (setRating "img1" "like" writeFails online0))
    = {[ "img1" := {[ "Guest" := "like" ]} ]}
  ∧ resultOf (getRatings "img1" true
                (stateOf (setRating "img1" "like" writeFails online0)))
    = ∅
  ∧ resultOf (getRatings "img1" false
                (stateOf (setRating "img1" "like" writeFails online0)))
    = {[ "Guest" := "like" ]}.
Proof. repeat split; vm_compute; reflexivity. Qed.

(** *** Subscriptions *)

Lemma set_delete_not_elem fn set : fn ∉ set_delete fn set.
Proof.
  unfold set_delete. rewrite list_elem_of_In, filter_In.
  intros [_ H]. by rewrite bool_decide_eq_true_2 in H.
Qed.

Lemma set_delete_absent fn set : fn ∉ set → set_delete fn set = set.
Proof.
  unfold set_delete. induction set as [|g set IH]; [done|].
  intros [Hne Hnot]%not_elem_of_cons. simpl.
  rewrite bool_decide_eq_false_2 by done. simpl. by rewrite IH.
Qed.

Lemma callUnsubscribe_run id callback st :
  callUnsubscribe (Unsub id callback) st
  = (tt, set_watchers (withoutWatcher id callback) st, []).
Proof.
  unfold callUnsubscribe, withoutWatcher. run_monad.
  destruct st as [d cu au ls c w r]. unfold set_watchers. simpl.
  destruct (w !! id) as [set|]; [|done].
  by case_decide.
Qed.

(** After the removal the callback is in no set of the image. *)
Lemma withoutWatcher_gone id callback w :
  callback ∉ default [] (withoutWatcher id callback w !! id).
Proof.
  unfold withoutWatcher.
  destruct (w !! id) as [set|] eqn:E.
  - case_decide.
    + rewrite lookup_delete_eq. simpl. apply not_elem_of_nil.
    + rewrite lookup_insert_eq. simpl. apply set_delete_not_elem.
  - rewrite E. simpl. apply not_elem_of_nil.
Qed.

Lemma withoutWatcher_idemp id callback w :
  withoutWatcher id callback (withoutWatcher id callback w)
  = withoutWatcher id callback w.
Proof.
  unfold withoutWatcher at 1.
  destruct (withoutWatcher id callback w !! id) as [set|] eqn:E; [|done].
  pose proof (withoutWatcher_gone id callback w) as Hgone.
  rewrite E in Hgone. simpl in Hgone.
  rewrite set_delete_absent by done.
  case_decide.
  - (* an empty set is never stored *)
    exfalso. unfold withoutWatcher in E.
    destruct (w !! id) as [set0|] eqn:E0.
    + case_decide.
      * by rewrite lookup_delete_eq in E.
      * rewrite lookup_insert_eq in E. by simplify_eq.
    + congruence.
  - by apply insert_id.
Qed.

Lemma setRating_notifies_watchers_only imageId rating o st k fn m :
  EvNotify k fn m ∈ traceOf (setRating imageId rating o st) →
  k = normalizeText (Some imageId) ∧ fn ∈ default [] (watchers st !! k).
Proof.
  destruct (decide (normalizeText (Some imageId) = "")) as [Hid|Hid].
  { rewrite setRating_blank by done. by intros ?%elem_of_nil. }
  destruct (VALID_has (normalizeText (Some rating))) eqn:Hv.
  2:{ rewrite setRating_invalid by done. by intros ?%elem_of_nil. }
  rewrite setRating_valid by done. unfold traceOf at 1. cbn [snd].
  intros [Hin|Hin]%elem_of_app.
  - unfold fanOut in Hin. apply list_elem_of_fmap in Hin as (g & Heq & Hg).
    by simplify_eq.
  - apply elem_of_cons in Hin as [?|Hin]; [done|].
    pose proof (persistDelta_no_notify (normalizeText (Some imageId))
      (resolveUser st) (normalizeText (Some rating))
      (toggleOff (getCachedRatings st (normalizeText (Some imageId)))
         (resolveUser st) (normalizeText (Some rating))) o
      (set_cache <[normalizeText (Some imageId) := optimistic st imageId rating]> st))
      as Hno.
    rewrite Forall_forall in Hno. by specialize (Hno _ Hin).
Qed.

Lemma getRatings_pure imageId readOk st :
  stateOf (getRatings imageId readOk st) = st
  ∧ Forall (λ e, isNotify e = false) (traceOf (getRatings imageId readOk st)).
Proof.
  unfold getRatings, offlineRatings, loadOfflineStore.
  case_decide; [by split|].
  run_monad. destruct (db st), readOk; simpl; split; try done;
    repeat (apply Forall_cons; split; [done|]); apply Forall_nil_2.
Qed.

(** A hydration that resolves notifies the watchers registered at that
    time, and nobody else. *)
Lemma hydrate_notifies_watchers_only id readOk st k fn m :
  EvNotify k fn m ∈ traceOf (hydrate id readOk st) →
  k = id ∧ fn ∈ default [] (watchers st !! k).
Proof.
  unfold hydrate. unfold mbind, M_bind, bind.
  destruct (getRatings_pure id readOk st) as [Hst Hno].
  destruct (getRatings id readOk st) as [[ratings st0] t0].
  unfold stateOf, traceOf in Hst, Hno. simpl in Hst, Hno. subst st0.
  unfold emit. rewrite setCachedRatings_run. unfold traceOf. simpl.
  intros [Hin|Hin]%elem_of_app.
  - rewrite Forall_forall in Hno. by specialize (Hno _ Hin).
  - apply elem_of_cons in Hin as [?|Hin]; [done|].
    unfold fanOut in Hin. apply list_elem_of_fmap in Hin as (g & Heq & Hg).
    by simplify_eq.
Qed.

Lemma subscribeToRatings_run imageId callback st :
  normalizeText (Some imageId) ≠ "" →
  subscribeToRatings imageId (Some callback) st
  = ({| unsubscribe := Unsub (normalizeText (Some imageId)) callback;
        hydration := if cache st !! normalizeText (Some imageId) is Some _
                     then None else Some (normalizeText (Some imageId)) |},
     set_watchers (λ w, <[normalizeText (Some imageId) :=
                            set_add callback
                              (default [] (w !! normalizeText (Some imageId)))]> w) st,
     [EvNotify (normalizeText (Some imageId)) callback
        (getCachedRatings st (normalizeText (Some imageId)))]).
Proof.
  intros Hid. unfold subscribeToRatings.
  rewrite decide_False by done. by run_monad.
Qed.

Lemma subscribeToRatings_blank imageId callback st :
  normalizeText (Some imageId) = "" →
  subscribeToRatings imageId (Some callback) st
  = ({| unsubscribe := UnsubNoop; hydration := None |}, st, []).
Proof. intros Hid. unfold subscribeToRatings. by rewrite decide_True. Qed.

(** C8. The function returned by [subscribeToRatings] can be called in
    any later state: it returns normally and touches nothing but the
    registry; a second call, or a call when the image has no watcher set
    left, changes nothing. Once it has run, no [setRating] call invokes
    the callback for that image. If the callback was the only watcher of
    the image, the registry has no entry for the image afterwards; in
    particular subscribing to an unwatched image and unsubscribing
    restores the registry. *)
Theorem unsubscribe_idempotent_leak_free imageId callback st st1 :
  let id := normalizeText (Some imageId) in
  let sub := subscribeToRatings imageId (Some callback) st in
  let u := unsubscribe (resultOf sub) in
  let st2 := stateOf (callUnsubscribe u st1) in
  traceOf (callUnsubscribe u st1) = []
  ∧ cache st2 = cache st1 ∧ localStorage st2 = localStorage st1
  ∧ remote st2 = remote st1
  ∧ callUnsubscribe u st2 = (tt, st2, [])
  ∧ (watchers st1 !! id = None → callUnsubscribe u st1 = (tt, st1, []))
  ∧ (∀ img rating o m,
       EvNotify id callback m ∉ traceOf (setRating img rating o st2))
  ∧ (∀ h readOk m,
       hydration (resultOf sub) = Some h →
       EvNotify id callback m ∉ traceOf (hydrate h readOk st2))
  ∧ (id ≠ "" → watchers st1 !! id = Some [callback] → watchers st2 !! id = None)
  ∧ (id ≠ "" → watchers st !! id = None →
     watchers (stateOf sub) !! id = Some [callback]
     ∧ watchers (stateOf (callUnsubscribe u (stateOf sub))) = watchers st).
Proof.
  intros id sub u st2.
  destruct (decide (id = "")) as [Hid|Hid].
  - (* a blank id: the no-op function *)
    assert (Hu : u = UnsubNoop).
    { unfold u, sub. by rewrite subscribeToRatings_blank. }
    unfold st2. rewrite Hu. simpl.
    repeat split; try done.
    + intros img rating o m Hin.
      destruct (decide (normalizeText (Some img) = "")) as [Himg|Himg].
      * rewrite setRating_blank in Hin by done. by apply elem_of_nil in Hin.
      * apply setRating_notifies_watchers_only in Hin as [Hk _]. congruence.
    + intros h readOk m Hh. unfold sub in Hh.
      by rewrite subscribeToRatings_blank in Hh.
  - assert (Hu : u = Unsub id callback).
    { unfold u, sub. by rewrite subscribeToRatings_run. }
    unfold st2. rewrite Hu. rewrite !callUnsubscribe_run.
    unfold stateOf, traceOf. cbn [fst snd].
    split; [done|]. split; [done|]. split; [done|]. split; [done|].
    split; [|split; [|split; [|split; [|split]]]].
    + destruct st1 as [d cu au ls c w r]. unfold set_watchers. simpl.
      by rewrite withoutWatcher_idemp.
    + intros Hnone. destruct st1 as [d cu au ls c w r]. simpl in Hnone.
      unfold set_watchers, withoutWatcher. simpl. by rewrite Hnone.
    + intros img rating o m [Hk Hfn]%setRating_notifies_watchers_only.
      simpl in Hfn. by apply withoutWatcher_gone in Hfn.
    + intros h readOk m Hh [Hk Hfn]%hydrate_notifies_watchers_only.
      simpl in Hfn. by apply withoutWatcher_gone in Hfn.
    + intros _ Hone. simpl. unfold withoutWatcher. rewrite Hone.
      unfold set_delete. simpl. rewrite bool_decide_eq_true_2 by done.
      simpl. apply lookup_delete_eq.
    + intros _ Hnone. unfold sub.
      rewrite subscribeToRatings_run by done. fold id. simpl.
      rewrite Hnone. simpl. unfold set_add.
      rewrite decide_False by apply not_elem_of_nil. simpl.
      split; [apply lookup_insert_eq|].
      unfold withoutWatcher. rewrite lookup_insert_eq.
      unfold set_delete. simpl. rewrite bool_decide_eq_true_2 by done.
      simpl. by apply delete_insert_id.
Qed.

Lemma unsubscribe_idempotent_leak_free_witness :
  watchers (stateOf (subscribeToRatings "img1" (Some 7) online0)) !! "img1"
  = Some [7]
  ∧ watchers
      (stateOf (callUnsubscribe
         (unsubscribe (resultOf (subscribeToRatings "img1" (Some 7) online0)))
         (stateOf (subscribeToRatings "img1" (Some 7) online0))))
    = watchers online0.
Proof.
  apply (unsubscribe_idempotent_leak_free "img1" 7 online0 online0).
  - vm_compute. discriminate.
  - vm_compute. reflexivity.
Defined.

(** *** Remote snapshots *)

Lemma VALID_has_elem value : VALID_has value = true ↔ value ∈ VALID.
Proof. unfold VALID_has. apply bool_decide_eq_true. Qed.

Lemma validCell_valid raw v : validCell raw = Some v → v ∈ VALID.
Proof.
  unfold validCell. destruct (VALID_has (normalizeText raw)) eqn:E; [|done].
  intros [= <-]. by apply VALID_has_elem.
Qed.

(** The loop, started from [acc], over documents with distinct ids: a
    document decides its own key, the accumulator the others. *)
Lemma snapshot_fold_lookup (snapshot : Snapshot) (acc : VoteMap) (u : string) :
  NoDup snapshot.*1 →
  foldl (λ (ratings : VoteMap) doc,
           let value := normalizeText doc.2 in
           if VALID_has value then <[doc.1 := value]> ratings else ratings)
        acc snapshot !! u
  = match (list_to_map snapshot : gmap string (option string)) !! u with
    | Some raw => if validCell raw is Some v then Some v else acc !! u
    | None => acc !! u
    end.
Proof.
  revert acc. induction snapshot as [|[k raw] snapshot IH]; intros acc Hnd.
  { simpl. by rewrite lookup_empty. }
  apply NoDup_cons in Hnd as [Hk Hnd]. simpl.
  rewrite IH by done.
  destruct (decide (u = k)) as [->|Hne].
  - rewrite lookup_insert_eq.
    rewrite (not_elem_of_list_to_map_1 snapshot k) by done.
    unfold validCell.
    destruct (VALID_has (normalizeText raw)); [|done].
    by rewrite lookup_insert_eq.
  - rewrite lookup_insert_ne by done.
    destruct (list_to_map snapshot !! u) as [raw'|]; [destruct (validCell raw')|];
      try done; destruct (VALID_has (normalizeText raw)); try done;
      by rewrite lookup_insert_ne.
Qed.

(** Whatever the documents, a key of the result holds a valid value that
    some document of that id carried. *)
Lemma snapshot_fold_valid (snapshot : Snapshot) (acc : VoteMap) u v :
  foldl (λ (ratings : VoteMap) doc,
           let value := normalizeText doc.2 in
           if VALID_has value then <[doc.1 := value]> ratings else ratings)
        acc snapshot !! u = Some v →
  acc !! u = Some v
  ∨ ∃ raw, (u, raw) ∈ snapshot ∧ validCell raw = Some v.
Proof.
  revert acc. induction snapshot as [|[k raw] snapshot IH]; intros acc; simpl.
  { by left. }
  intros [Hacc|(raw' & Hin & Hv)]%IH.
  - destruct (VALID_has (normalizeText raw)) eqn:E; [|by left].
    destruct (decide (u = k)) as [->|Hne].
    + rewrite lookup_insert_eq in Hacc. simplify_eq.
      right. exists raw. split; [by left|]. unfold validCell. by rewrite E.
    + rewrite lookup_insert_ne in Hacc by done. by left.
  - right. exists raw'. split; [by right|done].
Qed.

Lemma getRatings_remote imageId st :
  db st = true →
  normalizeText (Some imageId) ≠ "" →
  getRatings imageId true st
  = (snapshotRatings (remoteSnapshot st (normalizeText (Some imageId))), st,
     [EvRemoteGet (normalizeText (Some imageId)); EvAwait]).
Proof.
  intros Hdb Hid. unfold getRatings. rewrite decide_False by done.
  run_monad. by rewrite Hdb.
Qed.

Lemma remoteSnapshot_lookup st id u :
  snapshotRatings (remoteSnapshot st id) !! u = remoteCell st id u ≫= validCell.
Proof.
  unfold snapshotRatings, remoteSnapshot, remoteCell.
  rewrite snapshot_fold_lookup by apply NoDup_fst_map_to_list.
  rewrite list_to_map_to_list, lookup_empty.
  destruct (images (remote st) !! id) as [cells|]; simpl.
  - destruct (cells !! u) as [raw|]; simpl; [|done].
    by destruct (validCell raw).
  - by rewrite lookup_empty.
Qed.

(** C7, amended. For an image id and a voter that are not the reserved
    property name [__proto__]: when the remote write of a call fails, the
    same delta (set or delete of the caller's cell for the image) is
    written to the local record under the fixed storage key: the record's
    cell equals the optimistic value held by the cache, its other cells
    are as before, and the remote cells are unchanged. A later
    [getRatings] for the image shows the optimistic value when it is
    answered from the local record, that is, when its remote read fails
    too; when its remote read succeeds it returns the valid remote cells,
    which the failed write did not reach. *)
Theorem setRating_write_failure_local imageId rating o st :
  let id := normalizeText (Some imageId) in
  let v := normalizeText (Some rating) in
  let A := resolveUser st in
  let st' := stateOf (setRating imageId rating o st) in
  id ≠ "" →
  id ≠ JS.protoKey →
  A ≠ JS.protoKey →
  VALID_has v = true →
  db st = true →
  writeOk o = false →
  cachedVote st' id A
    = (if toggleOff (getCachedRatings st id) A v then None else Some v)
  ∧ houseRatings (localStorage st') = Some (offlineStore st')
  ∧ last (traceOf (setRating imageId rating o st))
    = Some (EvLocalWrite STORAGE_KEY (offlineStore st'))
  ∧ cellOf (offlineStore st') id A = cachedVote st' id A
  ∧ (∀ k u, (k, u) ≠ (id, A) →
       cellOf (offlineStore st') k u = cellOf (offlineStore st) k u)
  ∧ images (remote st') = images (remote st)
  ∧ resultOf (getRatings imageId false st') !! A = cachedVote st' id A
  ∧ (∀ u, resultOf (getRatings imageId true st') !! u
          = remoteCell st id u ≫= validCell).
Proof.
  intros id v A st' Hid _ _ Hv Hdb Hw.
  assert (Hcell : cachedVote st' id A
            = if toggleOff (getCachedRatings st id) A v then None else Some v).
  { unfold st', id, A. rewrite setRating_own_cell by done.
    unfold toggleOff, cachedVote. fold id v A.
    by case_decide; case_bool_decide. }
  destruct (persistDelta_write_failed id A v
              (toggleOff (getCachedRatings st id) A v) o
              (set_cache <[id := optimistic st imageId rating]> st) Hdb Hw)
    as (Hls & Hrem & Hlast).
  change (persistDelta _ _ _ _ _ _) with (setRatingTail imageId rating o st)
    in Hls, Hrem, Hlast.
  change (offlineStore (set_cache _ st)) with (offlineStore st) in Hls, Hlast.
  assert (Hst : st' = stateOf (setRatingTail imageId rating o st)).
  { unfold st'. by rewrite setRating_valid. }
  assert (Hstore : offlineStore st'
            = applyDelta (offlineStore st) id A v
                (toggleOff (getCachedRatings st id) A v)).
  { unfold offlineStore at 1. by rewrite Hst, Hls. }
  assert (Hdb' : db st' = true).
  { rewrite Hst.
    destruct (setRatingTail_frame imageId rating o st) as (_ & _ & -> & _). done. }
  split; [done|]. split; [by rewrite Hstore, Hst|]. split.
  { rewrite setRating_valid by done. unfold traceOf at 1. cbn [snd].
    rewrite last_app_cons, last_cons, Hlast. by rewrite Hstore. }
  split; [by rewrite Hstore, applyDelta_cell|].
  split; [intros k u Hne; by rewrite Hstore, applyDelta_other|].
  split; [by rewrite Hst|]. split.
  - rewrite getRatings_fallback. unfold resultOf. cbn [fst].
    fold id. rewrite decide_False by done.
    rewrite <- (applyDelta_cell (offlineStore st) id A v
                  (toggleOff (getCachedRatings st id) A v)) in Hcell.
    rewrite Hcell, <- Hstore. unfold cellOf.
    by destruct (offlineStore st' !! id).
  - intros u. rewrite getRatings_remote by done. unfold resultOf. cbn [fst].
    fold id. rewrite remoteSnapshot_lookup. unfold remoteCell.
    rewrite Hst. by rewrite Hrem.
Qed.

Lemma setRating_write_failure_local_witness :
  houseRatings (localStorage (stateOf (setRating "img1" "like" writeFails online0)))
  = Some {[ "img1" := {[ "Guest" := "like" ]} ]}.
Proof.
  destruct (setRating_write_failure_local "img1" "like" writeFails online0)
    as (_ & Hls & _).
  - vm_compute. discriminate.
  - vm_compute. discriminate.
  - vm_compute. discriminate.
  - vm_compute. reflexivity.
  - vm_compute. reflexivity.
  - reflexivity.
  - rewrite Hls. by vm_compute.
Defined.

(** C10. A map built from a remote snapshot holds only like, unsure or
    dislike: each of its entries is the trimmed value of a document of
    that id, and a cell whose trimmed value is none of the three is left
    out. This holds for the map a successful remote [getRatings] returns,
    whose entries are exactly the valid remote cells, and for the map the
    live listener of [mountCard] writes to the cache. *)
Theorem snapshot_maps_only_valid :
  (∀ (snapshot : Snapshot) u v,
     snapshotRatings snapshot !! u = Some v →
     v ∈ VALID ∧ ∃ raw, (u, raw) ∈ snapshot ∧ v = normalizeText raw)
  ∧ (∀ (snapshot : Snapshot) u,
       NoDup snapshot.*1 →
       ∀ raw, (u, raw) ∈ snapshot →
       VALID_has (normalizeText raw) = false →
       snapshotRatings snapshot !! u = None)
  ∧ (∀ st imageId u,
       db st = true → normalizeText (Some imageId) ≠ "" →
       resultOf (getRatings imageId true st) !! u
       = remoteCell st (normalizeText (Some imageId)) u ≫= validCell)
  ∧ (∀ st imageId u v,
       db st = true →
       resultOf (getRatings imageId true st) !! u = Some v → v ∈ VALID)
  ∧ (∀ st id (snapshot : Snapshot),
       cache (stateOf (onSnapshot id snapshot st)) !! id
       = Some (snapshotRatings snapshot))
  ∧ (∀ st id (snapshot : Snapshot) u v,
       getCachedRatings (stateOf (onSnapshot id snapshot st)) id !! u = Some v →
       v ∈ VALID).
Proof.
  assert (Hvalid : ∀ (snapshot : Snapshot) u v,
            snapshotRatings snapshot !! u = Some v →
            v ∈ VALID ∧ ∃ raw, (u, raw) ∈ snapshot ∧ v = normalizeText raw).
  { intros snapshot u v [Hacc|(raw & Hin & Hv)]%snapshot_fold_valid.
    { by rewrite lookup_empty in Hacc. }
    split; [by eapply validCell_valid|].
    exists raw. split; [done|].
    unfold validCell in Hv. destruct (VALID_has _); by simplify_eq. }
  split; [exact Hvalid|]. split; [|split; [|split; [|split]]].
  - intros snapshot u Hnd raw Hin Hbad. unfold snapshotRatings.
    rewrite snapshot_fold_lookup by done.
    rewrite (elem_of_list_to_map_1 snapshot u raw) by done.
    unfold validCell. by rewrite Hbad, lookup_empty.
  - intros st imageId u Hdb Hid. rewrite getRatings_remote by done.
    apply remoteSnapshot_lookup.
  - intros st imageId u v Hdb.
    destruct (decide (normalizeText (Some imageId) = "")) as [Hid|Hid].
    + unfold getRatings. rewrite decide_True by done.
      unfold resultOf, ret. simpl. by rewrite lookup_empty.
    + rewrite getRatings_remote by done. unfold resultOf. simpl.
      intros H. by apply Hvalid in H as [? _].
  - intros st id snapshot. unfold onSnapshot.
    rewrite setCachedRatings_run. simpl. apply lookup_insert_eq.
  - intros st id snapshot u v. unfold onSnapshot, getCachedRatings.
    rewrite setCachedRatings_run. simpl. rewrite lookup_insert_eq. simpl.
    intros H. by apply Hvalid in H as [? _].
Qed.

Lemma snapshot_maps_only_valid_witness :
  snapshotRatings [("Ann", Some " like "); ("Bob", Some "meh"); ("Cy", None)]
    !! "Bob" = None.
Proof.
  apply (proj1 (proj2 snapshot_maps_only_valid)
           [("Ann", Some " like "); ("Bob", Some "meh"); ("Cy", None)]
           "Bob") with (raw := Some "meh").
  - apply (bool_decide_unpack _). vm_compute. exact I.
  - apply (bool_decide_unpack _). vm_compute. exact I.
  - vm_compute. reflexivity.
Defined.

End RatingsProps.

(** * Further properties of the views *)

(** ** Results: the four lists of [renderResults] *)

Section ResultsViews.

Import Results.

Lemma listOf_pushTo c c' image cs :
  listOf c (pushTo c' image cs)
  = listOf c cs ++ (if decide (c' = c) then [image] else []).
Proof. destruct c, c'; simpl; by rewrite ?app_nil_r. Qed.

Lemma renderResults_fold (f : string → Category) (l : list string) cs c :
  listOf c (foldl (λ cs image, pushTo (f image) image cs) cs l)
  = listOf c cs ++ filter (λ image, f image = c) l.
Proof.
  revert cs. induction l as [|x l IH]; intros cs; simpl.
  { by rewrite app_nil_r. }
  rewrite IH, listOf_pushTo, filter_cons.
  case_decide; simpl; by rewrite <- ?app_assoc, ?app_nil_r.
Qed.

Lemma four_way_split (f : string → Category) (l : list string) :
  filter (λ x, f x = consensus) l ++ filter (λ x, f x = controversial) l
  ++ filter (λ x, f x = rejected) l ++ filter (λ x, f x = unrated) l
  ≡ₚ l.
Proof.
  induction l as [|x l IH]; [done|].
  rewrite !filter_cons.
  destruct (f x) eqn:E; repeat case_decide; try done; simpl.
  - rewrite <- IH at 5. by rewrite !(Permutation_middle _ _ x), !app_assoc.
  - by rewrite IH.
  - rewrite <- IH at 5. by rewrite <- !Permutation_middle.
  - rewrite <- IH at 5. by rewrite <- !Permutation_middle.
Qed.

Lemma renderResults_lists (allImages : list string)
    (allRatings : gmap string (gmap string string)) (selectedUser : string) c :
  listOf c (renderResults allImages allRatings selectedUser)
  = filter (λ image, categoryOf allRatings selectedUser image = c) allImages.
Proof.
  unfold renderResults.
  rewrite (renderResults_fold (categoryOf allRatings selectedUser)).
  by destruct c.
Qed.

(** X1. [renderResults] splits the images without loss or repetition:
    each of its four lists is the sub-list of the images that
    [categoryOf] sends there, in the original order, so the four lists
    together are a rearrangement of the images and the four counts add up
    to the number of images. *)
Theorem renderResults_partition (allImages : list string)
    (allRatings : gmap string (gmap string string)) (selectedUser : string) :
  (∀ c, listOf c (renderResults allImages allRatings selectedUser)
        = filter (λ image, categoryOf allRatings selectedUser image = c) allImages)
  ∧ cat_consensus (renderResults allImages allRatings selectedUser)
    ++ cat_controversial (renderResults allImages allRatings selectedUser)
    ++ cat_rejected (renderResults allImages allRatings selectedUser)
    ++ cat_unrated (renderResults allImages allRatings selectedUser)
    ≡ₚ allImages
  ∧ length (cat_consensus (renderResults allImages allRatings selectedUser))
    + length (cat_controversial (renderResults allImages allRatings selectedUser))
    + length (cat_rejected (renderResults allImages allRatings selectedUser))
    + length (cat_unrated (renderResults allImages allRatings selectedUser))
    = length allImages.
Proof.
  pose proof (renderResults_lists allImages allRatings selectedUser) as Hlist.
  assert (Hperm : cat_consensus (renderResults allImages allRatings selectedUser)
    ++ cat_controversial (renderResults allImages allRatings selectedUser)
    ++ cat_rejected (renderResults allImages allRatings selectedUser)
    ++ cat_unrated (renderResults allImages allRatings selectedUser)
    ≡ₚ allImages).
  { pose proof (Hlist consensus) as H1. pose proof (Hlist controversial) as H2.
    pose proof (Hlist rejected) as H3. pose proof (Hlist unrated) as H4.
    simpl in H1, H2, H3, H4. rewrite H1, H2, H3, H4.
    apply four_way_split. }
  split; [done|]. split; [done|].
  apply Permutation_length in Hperm. rewrite !length_app in Hperm. lia.
Qed.

(** X2. With a user selected, [renderResults] goes by what
    [ratings[selectedUser]] yields for the image, and what the other
    voters said plays no part: the consensus list holds the images the
    user likes, the rejected list those the user dislikes, the
    controversial list those on which the user holds any other non-empty
    vote (unsure), and the unrated list those on which the user holds no
    vote or an empty one. A selected name that every object inherits
    ([constructor], [toString], ...) reads as a vote that is neither like
    nor dislike wherever the user has not voted: those images are listed
    as controversial, not as unrated. The image is one whose row of the
    table is looked up by an ordinary name, or is there. *)
Theorem renderResults_selected_user (allImages : list string)
    (allRatings : gmap string (gmap string string)) (selectedUser image : string) :
  selectedUser ≠ "all" →
  JS.inherited image = false ∨ is_Some (allRatings !! image) →
  let vote := default ∅ (allRatings !! image) !! selectedUser in
  let r := renderResults allImages allRatings selectedUser in
  (image ∈ cat_consensus r ↔ image ∈ allImages ∧ vote = Some "like")
  ∧ (image ∈ cat_rejected r ↔ image ∈ allImages ∧ vote = Some "dislike")
  ∧ (image ∈ cat_controversial r
     ↔ image ∈ allImages
       ∧ ((∃ v, vote = Some v ∧ v ≠ "" ∧ v ≠ "like" ∧ v ≠ "dislike")
          ∨ (vote = None ∧ JS.inherited selectedUser = true)))
  ∧ (image ∈ cat_unrated r
     ↔ image ∈ allImages
       ∧ (vote = Some "" ∨ (vote = None ∧ JS.inherited selectedUser = false))).
Proof.
  intros Hsel _ vote r.
  pose proof (renderResults_lists allImages allRatings selectedUser) as Hlist.
  pose proof (Hlist consensus) as H1. pose proof (Hlist controversial) as H2.
  pose proof (Hlist rejected) as H3. pose proof (Hlist unrated) as H4.
  simpl in H1, H2, H3, H4. fold r in H1, H2, H3, H4.
  rewrite H1, H2, H3, H4. rewrite !list_elem_of_filter.
  clear H1 H2 H3 H4 Hlist. subst vote.
  unfold categoryOf, JS.get. rewrite !decide_False by done.
  destruct (default ∅ (allRatings !! image) !! selectedUser) as [v|].
  - assert (Hex : (∃ v', Some v = Some v' ∧ v' ≠ "" ∧ v' ≠ "like" ∧ v' ≠ "dislike")
                  ↔ v ≠ "" ∧ v ≠ "like" ∧ v ≠ "dislike").
    { split; [intros (v' & [= <-] & ?); done | intros ?; by exists v]. }
    rewrite Hex.
    repeat case_decide; subst; intuition congruence.
  - assert (Hex : ¬ ∃ v' : string, None = Some v' ∧ v' ≠ "" ∧ v' ≠ "like" ∧ v' ≠ "dislike").
    { by intros (? & ? & _). }
    destruct (JS.inherited selectedUser); intuition congruence.
Qed.

Lemma renderResults_selected_user_witness :
  "img2" ∈ cat_controversial
             (renderResults ["img1"; "img2"]
                {[ "img1" := {[ "Ann" := "like" ]};
                   "img2" := {[ "Ann" := "unsure"; "Bob" := "like"; "Cy" := "like" ]} ]}
                "Ann").
Proof.
  destruct (renderResults_selected_user ["img1"; "img2"]
           {[ "img1" := {[ "Ann" := "like" ]};
              "img2" := {[ "Ann" := "unsure"; "Bob" := "like"; "Cy" := "like" ]} ]}
           "Ann" "img2") as (_ & _ & Hc & _);
    [discriminate|left; vm_compute; reflexivity|].
  apply Hc. split.
  - apply (bool_decide_unpack _). vm_compute. exact I.
  - left. exists "unsure". vm_compute. repeat split; discriminate.
Defined.

End ResultsViews.

(** ** Gallery: like-count groups and the rating filter *)

Section GalleryViews.

Import Gallery.

Lemma groupKey_le ratings : groupKey ratings ≤ 3.
Proof. unfold groupKey. lia. Qed.

Lemma group_fold (l : list (string * gmap string string))
    (acc : gmap nat (list string)) (k : nat) :
  foldl (λ (groups : gmap nat (list string)) image,
           let key := groupKey image.2 in
           <[key := default [] (groups !! key) ++ [image.1]]> groups) acc l !! k
  = match acc !! k with
    | Some xs => Some (xs ++ (filter (λ image, groupKey image.2 = k) l).*1)
    | None =>
      if decide ((filter (λ image, groupKey image.2 = k) l).*1 = []) then None
      else Some ((filter (λ image, groupKey image.2 = k) l).*1)
    end.
Proof.
  revert acc. induction l as [|x l IH]; intros acc; simpl.
  { destruct (acc !! k); [by rewrite app_nil_r | done]. }
  rewrite IH, filter_cons. clear IH.
  destruct (decide (groupKey x.2 = k)) as [Hk|Hk].
  - rewrite Hk, lookup_insert_eq. simpl.
    destruct (acc !! k); simpl; by rewrite <- ?app_assoc.
  - rewrite lookup_insert_ne by done. done.
Qed.

Lemma groupImagesByLikes_lookup (images : list (string * gmap string string)) k :
  groupImagesByLikes images !! k
  = if decide (k ≤ 3)
    then Some ((filter (λ image, groupKey image.2 = k) images).*1)
    else None.
Proof.
  unfold groupImagesByLikes. rewrite group_fold.
  destruct (decide (k ≤ 3)) as [Hk|Hk].
  - assert (k = 0 ∨ k = 1 ∨ k = 2 ∨ k = 3) as [->|[->|[->| ->]]] by lia; done.
  - rewrite !lookup_insert_ne by lia. rewrite lookup_singleton_ne by lia.
    rewrite decide_True; [done|].
    induction images as [|x l IH]; [done|].
    rewrite filter_cons. pose proof (groupKey_le x.2).
    by rewrite decide_False by lia.
Qed.

(** X3. [groupImagesByLikes] always returns the four groups 0..3 and
    nothing else; group [k] holds, in the original order, exactly the
    images whose like count clamped to 3 is [k]. Only likes count: an
    image without a like, whether unrated or disliked by all, is in
    group 0, and three or more likes put an image in group 3. *)
Theorem groupImagesByLikes_groups (images : list (string * gmap string string)) :
  (∀ k, groupImagesByLikes images !! k
        = if decide (k ≤ 3)
          then Some ((filter (λ image, groupKey image.2 = k) images).*1)
          else None)
  ∧ (∀ ratings, groupKey ratings = 0 ↔ likeCount ratings = 0)
  ∧ (∀ ratings, groupKey ratings = 3 ↔ 3 ≤ likeCount ratings)
  ∧ groupKey ∅ = 0.
Proof.
  split; [|split; [|split]].
  - apply groupImagesByLikes_lookup.
  - intros. unfold groupKey. lia.
  - intros. unfold groupKey. lia.
  - by vm_compute.
Qed.

(** X4. In the summary line of the tiered view the count of photos
    outside group 0 and the count of rejected photos add up to the total. *)
Theorem tieredSummary_adds_up (images : list (string * gmap string string)) :
  (tieredSummary images).1.1 + (tieredSummary images).2
  = (tieredSummary images).1.2.
Proof.
  unfold tieredSummary. cbn [fst snd].
  assert (Hk : ∀ k, k ≤ 3 →
            length (default [] (groupImagesByLikes images !! k))
            = length (filter (λ image : string * gmap string string,
                                groupKey image.2 = k) images)).
  { intros k Hk. rewrite groupImagesByLikes_lookup, decide_True by done.
    cbn [default from_option]. unfold id. apply length_fmap. }
  rewrite !Hk by lia. clear Hk.
  induction images as [|x l IH]; [done|].
  rewrite !filter_cons. pose proof (groupKey_le x.2).
  repeat case_decide; simpl; lia.
Qed.

Lemma filter_fold (f : string * gmap string string → bool)
    (l acc : list (string * gmap string string)) :
  foldl (λ results image, if f image then results ++ [image] else results) acc l
  = acc ++ filter (λ image, f image = true) l.
Proof.
  revert acc. induction l as [|x l IH]; intros acc; simpl.
  { by rewrite app_nil_r. }
  rewrite IH, filter_cons.
  case_decide as Hx; rewrite Hx || apply not_true_is_false in Hx; rewrite ?Hx;
    by rewrite <- ?app_assoc.
Qed.

Lemma applyRatingFilter_filter (images : list (string * gmap string string))
    (filter user : string) :
  filter ≠ "all" →
  applyRatingFilter images filter user
  = base.filter (λ image, passesFilter filter user image.2 = true) images.
Proof.
  intros Hf. unfold applyRatingFilter. rewrite decide_False by done.
  by rewrite (filter_fold (λ image, passesFilter filter user image.2)).
Qed.

(** X5. [applyRatingFilter] only ever drops images: its result is a
    sub-list of the images in their original order, holding exactly the
    images that pass the filter; with "all", and with any filter name the
    [switch] does not know, every image is kept. *)
Theorem applyRatingFilter_sublist (images : list (string * gmap string string))
    (filter user : string) :
  applyRatingFilter images filter user `sublist_of` images
  ∧ (∀ image, image ∈ applyRatingFilter images filter user
              ↔ image ∈ images
                ∧ (filter = "all" ∨ passesFilter filter user image.2 = true))
  ∧ (filter ∉ ["unrated"; "my-likes"; "my-dislikes"; "popular"; "controversial"] →
     applyRatingFilter images filter user = images).
Proof.
  destruct (decide (filter = "all")) as [->|Hf].
  { unfold applyRatingFilter. simpl. split; [done|]. split; [|done].
    intros image. tauto. }
  rewrite applyRatingFilter_filter by done.
  split; [apply sublist_filter|]. split.
  - intros image. rewrite list_elem_of_filter. tauto.
  - intros Hnot. rewrite !not_elem_of_cons in Hnot.
    destruct Hnot as (? & ? & ? & ? & ? & _).
    assert (Hall : ∀ r, passesFilter filter user r = true).
    { intros r. unfold passesFilter. by rewrite !decide_False by done. }
    induction images as [|x l IH]; [done|].
    rewrite filter_cons, decide_True by apply Hall.
    by rewrite IH.
Qed.

Lemma applyRatingFilter_sublist_witness :
  applyRatingFilter
    [("img1", {[ "Ann" := "like" ]}); ("img2", {[ "Ann" := "unsure" ]})]
    "tiered" "Ann"
  = [("img1", {[ "Ann" := "like" ]}); ("img2", {[ "Ann" := "unsure" ]})].
Proof.
  apply (applyRatingFilter_sublist
           [("img1", {[ "Ann" := "like" ]}); ("img2", {[ "Ann" := "unsure" ]})]
           "tiered" "Ann").
  apply (bool_decide_unpack _). vm_compute. exact I.
Defined.

(** X6. The three personal filters never overlap, and they do not cover
    every image: an image on which the user's vote is unsure passes none
    of "unrated", "my-likes" and "my-dislikes". *)
Theorem personal_filters_disjoint (user : string) (ratings : gmap string string) :
  ¬ (passesFilter "my-likes" user ratings = true
     ∧ passesFilter "my-dislikes" user ratings = true)
  ∧ ¬ (passesFilter "unrated" user ratings = true
       ∧ passesFilter "my-likes" user ratings = true)
  ∧ ¬ (passesFilter "unrated" user ratings = true
       ∧ passesFilter "my-dislikes" user ratings = true)
  ∧ (ratings !! user = Some "unsure" →
     passesFilter "unrated" user ratings = false
     ∧ passesFilter "my-likes" user ratings = false
     ∧ passesFilter "my-dislikes" user ratings = false).
Proof.
  unfold passesFilter, JS.get. simpl.
  destruct (ratings !! user) as [v|]; simpl.
  - rewrite !bool_decide_eq_true.
    split; [intros [H1 H2]; congruence|].
    split; [intros [H1 H2]; congruence|].
    split; [intros [H1 H2]; congruence|].
    intros [= ->]. by repeat split; apply bool_decide_eq_false_2.
  - destruct (JS.inherited user); simpl;
      (split; [intros [H1 H2]; discriminate|]);
      (split; [intros [H1 H2]; discriminate|]);
      (split; [intros [H1 H2]; discriminate|]);
      intros H; discriminate H.
Qed.

Lemma personal_filters_disjoint_witness :
  passesFilter "unrated" "Ann" {[ "Ann" := "unsure"; "Bob" := "like" ]} = false
  ∧ passesFilter "my-likes" "Ann" {[ "Ann" := "unsure"; "Bob" := "like" ]} = false
  ∧ passesFilter "my-dislikes" "Ann" {[ "Ann" := "unsure"; "Bob" := "like" ]} = false.
Proof.
  apply (personal_filters_disjoint "Ann" {[ "Ann" := "unsure"; "Bob" := "like" ]}).
  vm_compute. reflexivity.
Defined.

(** X7. The gallery's "controversial" filter is wider than the
    controversial class of the results page: an image passes it exactly
    when [categorizeImage] calls it controversial, or calls it rejected
    although it has a like. *)
Theorem controversial_filter_vs_category (user : string) (ratings : gmap string string) :
  passesFilter "controversial" user ratings = true
  ↔ Results.categorizeImage (Some ratings) = Results.controversial
    ∨ (Results.categorizeImage (Some ratings) = Results.rejected
       ∧ 0 < likeCount ratings).
Proof.
  rewrite categorizeImage_spec. unfold passesFilter, likeCount. simpl.
  pose proof (values_length ratings) as Hsize.
  assert (Hle : JS.countEq "like" (JS.values ratings)
                + JS.countEq "dislike" (JS.values ratings)
                ≤ length (JS.values ratings)).
  { unfold JS.countEq. generalize (JS.values ratings) as l.
    induction l as [|v l IH]; [done|].
    rewrite !filter_cons. repeat case_decide; simplify_eq; simpl; lia. }
  rewrite Hsize in Hle.
  generalize dependent (JS.countEq "like" (JS.values ratings)).
  generalize dependent (JS.countEq "dislike" (JS.values ratings)).
  intros d l Hle. unfold Results.classify_spec.
  rewrite andb_true_iff, !Nat.ltb_lt.
  repeat case_decide; split; intros; destruct_or?; destruct_and?;
    first [done | lia | (left; done) | (right; split; [done|lia])].
Qed.

End GalleryViews.

(** ** Tiers: like counts in the gallery, the score field on the swatches page *)

Section Tiers.

Import Swatches.

Lemma likeCount_insert (ratings : gmap string string) (user v : string) :
  ratings !! user = None →
  Gallery.likeCount (<[user := v]> ratings)
  = (if decide (v = "like") then 1 else 0) + Gallery.likeCount ratings.
Proof.
  intros Hnone. unfold Gallery.likeCount, JS.countEq, JS.values.
  rewrite (map_to_list_insert ratings user v) by done.
  rewrite fmap_cons. cbn [snd]. rewrite filter_cons.
  repeat case_decide; simplify_eq; done.
Qed.

Lemma tierOf_groupKey (ratings : gmap string string) :
  Gallery.tierOf ratings
  = Some (match Gallery.groupKey ratings with
          | 0 => "Rejected" | 1 => "Maybe" | 2 => "Strong" | _ => "Favorites"
          end).
Proof.
  unfold Gallery.tierOf, Gallery.TIERS.
  assert (Hle : Gallery.groupKey ratings ≤ 3) by (unfold Gallery.groupKey; lia).
  destruct (Gallery.groupKey ratings) as [|[|[|[|k]]]]; simpl; first [done | lia].
Qed.

(** The claim as worded fails of the gallery's tiers: two likes and an
    unsure score 5, and the image is shown under Strong, the tier of two
    likes, not under the top tier. *)
Lemma score_does_not_bucket_images :
  ¬ (∀ voteMap : gmap string string,
       (5 ≤ score voteMap)%Z → Gallery.tierOf voteMap = Some "Favorites").
Proof.
  intros H.
  specialize (H {[ "a" := "like"; "b" := "like"; "c" := "unsure" ]}).
  assert (Hs : (5 ≤ score {[ "a" := "like"; "b" := "like"; "c" := "unsure" ]})%Z)
    by (vm_compute; discriminate).
  specialize (H Hs). vm_compute in H. discriminate.
Qed.

(** C3, amended. [groupImagesByLikes] puts an image in the group of its
    like count, clamped to 3, and the tiered view shows group [k] under
    the tier whose like count is [k]: a vote that is not a like leaves
    the group as it is, a further like moves the image one group up until
    group 3; three or more likes is the top tier, Favorites, and no like
    is the tier Rejected; two likes and an unsure are shown under Strong.
    The swatch views bucket by the pre-computed [score] field (0 when
    missing): the first tier, Favorites, is exactly score ≥ 5, which is
    also what the "favorites" filter keeps, and a swatch of score 0 or
    less, or without the field, stands under no tier. *)
Theorem tiers_by_likes_and_score_field :
  (∀ images k,
     Gallery.groupImagesByLikes images !! k
     = if decide (k ≤ 3)
       then Some ((filter (λ image, Gallery.groupKey image.2 = k) images).*1)
       else None)
  ∧ (∀ ratings, Gallery.groupKey ratings = Nat.min 3 (Gallery.likeCount ratings))
  ∧ (∀ ratings user v,
       ratings !! user = None → v ≠ "like" →
       Gallery.groupKey (<[user := v]> ratings) = Gallery.groupKey ratings)
  ∧ (∀ ratings user,
       ratings !! user = None →
       Gallery.groupKey (<[user := "like"]> ratings)
       = Nat.min 3 (S (Gallery.groupKey ratings)))
  ∧ (∀ ratings, Gallery.tierOf ratings = Some "Favorites"
                ↔ 3 ≤ Gallery.likeCount ratings)
  ∧ (∀ ratings, Gallery.tierOf ratings = Some "Rejected"
                ↔ Gallery.likeCount ratings = 0)
  ∧ Gallery.tierOf {[ "a" := "like"; "b" := "like"; "c" := "unsure" ]} = Some "Strong"
  ∧ t_label <$> head tiers = Some "⭐ Favorites"
  ∧ (∀ s, tiersOf s = ["⭐ Favorites"] ↔ (5 ≤ scoreOf s)%Z)
  ∧ (∀ swatches s,
       s ∈ applyLikesFilter swatches "favorites"
       ↔ s ∈ swatches ∧ (5 ≤ scoreOf s)%Z)
  ∧ (∀ s, (scoreOf s ≤ 0)%Z ∨ sw_score s = None → tiersOf s = []).
Proof.
  split; [apply groupImagesByLikes_lookup|].
  split; [intros; unfold Gallery.groupKey; lia|].
  split.
  { intros ratings user v Hnone Hv. unfold Gallery.groupKey.
    rewrite likeCount_insert by done. by rewrite decide_False. }
  split.
  { intros ratings user Hnone. unfold Gallery.groupKey.
    rewrite likeCount_insert by done. rewrite decide_True by done. lia. }
  split.
  { intros ratings. rewrite tierOf_groupKey. unfold Gallery.groupKey.
    destruct (Gallery.likeCount ratings) as [|[|[|k]]]; simpl;
      split; intros H; first [done | lia | by simplify_eq]. }
  split.
  { intros ratings. rewrite tierOf_groupKey. unfold Gallery.groupKey.
    destruct (Gallery.likeCount ratings) as [|[|[|k]]]; simpl;
      split; intros H; first [done | lia | by simplify_eq]. }
  split; [by vm_compute|].
  split; [done|]. split; [|split].
  - intros s. rewrite tiersOf_score.
    repeat case_decide; split; intros; first [done | lia].
  - intros swatches s. rewrite applyLikesFilter_elem.
    unfold keeps. rewrite decide_True by done. by rewrite Z.leb_le.
  - intros s Hz. rewrite tiersOf_score.
    assert (scoreOf s ≤ 0)%Z.
    { destruct Hz as [?|Hnone]; [done|]. unfold scoreOf. by rewrite Hnone. }
    repeat case_decide; first [done | lia].
Qed.

Lemma tiers_by_likes_and_score_field_witness :
  Gallery.groupKey (<[ "c" := "unsure" ]> {[ "a" := "like"; "b" := "like" ]})
  = Gallery.groupKey {[ "a" := "like"; "b" := "like" ]}.
Proof.
  apply (proj1 (proj2 (proj2 tiers_by_likes_and_score_field))
           {[ "a" := "like"; "b" := "like" ]} "c" "unsure").
  - vm_compute. reflexivity.
  - discriminate.
Defined.

End Tiers.

(** ** Swatches: the sorted filter and the tiered grid *)

Section SwatchViews.

Import Swatches.

#[local] Instance before_total : Total before.
Proof. intros a b. unfold before. lia. Qed.

#[local] Instance before_trans : Transitive before.
Proof. intros a b c. unfold before. lia. Qed.

Lemma insertSorted_sorted (a : Swatch) (l : list Swatch) :
  StronglySorted before l → StronglySorted before (insertSorted a l).
Proof.
  induction 1 as [|b l Hs IH Hall]; simpl.
  { by repeat constructor. }
  case_decide as Hab.
  - constructor; [by constructor|].
    constructor; [done|].
    eapply Forall_impl; [exact Hall|]. intros c Hbc. by etrans.
  - constructor; [done|].
    rewrite insertSorted_Permutation. constructor; [|done].
    by destruct (total before a b).
Qed.

Lemma sortSwatches_sorted (l : list Swatch) : StronglySorted before (sortSwatches l).
Proof.
  induction l as [|a l IH]; simpl; [constructor|].
  by apply insertSorted_sorted.
Qed.

Lemma StronglySorted_lookup_lt {A} (R : relation A) (l : list A) i j a b :
  StronglySorted R l → i < j → l !! i = Some a → l !! j = Some b → R a b.
Proof.
  intros Hs. revert i j. induction Hs as [|x l Hs IH Hall]; intros i j Hij Hi Hj.
  { by rewrite lookup_nil in Hi. }
  destruct j as [|j]; [lia|]. simpl in Hj.
  destruct i as [|i]; simpl in Hi.
  - simplify_eq. rewrite Forall_forall in Hall. apply Hall.
    by eapply list_elem_of_lookup_2.
  - apply (IH i j); [lia|done..].
Qed.

(** X8. [applyLikesFilter] returns the swatches that pass the filter, each
    as often as it came in, ordered by score from high to low and, among
    equal scores, by likes from high to low. *)
Theorem applyLikesFilter_sorted (swatches : list Swatch) (filter : string) :
  applyLikesFilter swatches filter ≡ₚ List.filter (keeps filter) swatches
  ∧ StronglySorted before (applyLikesFilter swatches filter)
  ∧ (∀ i j a b,
       i < j →
       applyLikesFilter swatches filter !! i = Some a →
       applyLikesFilter swatches filter !! j = Some b →
       (scoreOf b ≤ scoreOf a)%Z
       ∧ (scoreOf b = scoreOf a → likesOf b ≤ likesOf a)%Z).
Proof.
  assert (Hs : StronglySorted before (applyLikesFilter swatches filter)).
  { unfold applyLikesFilter. apply sortSwatches_sorted. }
  split; [apply sortSwatches_Permutation|]. split; [done|].
  intros i j a b Hij Hi Hj.
  pose proof (StronglySorted_lookup_lt before _ i j a b Hs Hij Hi Hj) as Hb.
  unfold before in Hb. lia.
Qed.

Lemma applyLikesFilter_sorted_witness :
  (scoreOf {| sw_id := "s2"; sw_score := Some 3%Z; sw_likes := Some 1%Z |}
   ≤ scoreOf {| sw_id := "s1"; sw_score := Some 5%Z; sw_likes := Some 2%Z |})%Z
  ∧ (scoreOf {| sw_id := "s2"; sw_score := Some 3%Z; sw_likes := Some 1%Z |}
     = scoreOf {| sw_id := "s1"; sw_score := Some 5%Z; sw_likes := Some 2%Z |} →
     likesOf {| sw_id := "s2"; sw_score := Some 3%Z; sw_likes := Some 1%Z |}
     ≤ likesOf {| sw_id := "s1"; sw_score := Some 5%Z; sw_likes := Some 2%Z |})%Z.
Proof.
  apply (proj2 (proj2 (applyLikesFilter_sorted
           [ {| sw_id := "s2"; sw_score := Some 3%Z; sw_likes := Some 1%Z |};
             {| sw_id := "s0"; sw_score := None; sw_likes := None |};
             {| sw_id := "s1"; sw_score := Some 5%Z; sw_likes := Some 2%Z |} ]
           "promising")) 0 1).
  - lia.
  - vm_compute. reflexivity.
  - vm_compute. reflexivity.
Defined.

(** X9. The named filters are nested thresholds, not the tiers of the
    same names: everything "favorites" shows "strong" shows too, and
    everything "strong" shows "promising" shows too, while "controversial"
    shows exactly the swatches "promising" leaves out, among them the
    swatches without a score. *)
Theorem likes_filters_nested (swatches : list Swatch) (s : Swatch) :
  (s ∈ applyLikesFilter swatches "favorites" → s ∈ applyLikesFilter swatches "strong")
  ∧ (s ∈ applyLikesFilter swatches "strong" → s ∈ applyLikesFilter swatches "promising")
  ∧ (s ∈ swatches →
     (s ∈ applyLikesFilter swatches "controversial"
      ↔ s ∉ applyLikesFilter swatches "promising"))
  ∧ (s ∈ swatches → sw_score s = None →
     s ∈ applyLikesFilter swatches "controversial").
Proof.
  rewrite !applyLikesFilter_elem. unfold keeps, scoreOf. simpl.
  rewrite !Z.leb_le.
  split; [|split; [|split]].
  - intros [? ?]. split; [done|lia].
  - intros [? ?]. split; [done|lia].
  - intros Hin. split.
    + intros [_ Hle] [_ Hge]. lia.
    + intros Hn. split; [done|].
      destruct (decide (default 0%Z (sw_score s) ≤ 2)%Z); [done|].
      exfalso. apply Hn. split; [done|lia].
  - intros Hin Hnone. split; [done|]. rewrite Hnone. simpl. lia.
Qed.

Lemma likes_filters_nested_witness :
  {| sw_id := "s0"; sw_score := None; sw_likes := None |}
  ∈ applyLikesFilter
      [ {| sw_id := "s0"; sw_score := None; sw_likes := None |};
        {| sw_id := "s1"; sw_score := Some 5%Z; sw_likes := Some 2%Z |} ]
      "controversial".
Proof.
  apply (likes_filters_nested
           [ {| sw_id := "s0"; sw_score := None; sw_likes := None |};
             {| sw_id := "s1"; sw_score := Some 5%Z; sw_likes := Some 2%Z |} ]
           {| sw_id := "s0"; sw_score := None; sw_likes := None |}).
  - left.
  - reflexivity.
Defined.

Lemma cardsOf_cards (l : list Swatch) : cardsOf (Card <$> l) = l.
Proof. unfold cardsOf. induction l as [|s l IH]; [done|]. simpl. f_equal. apply IH. Qed.

Lemma cardsOf_tierItems (filtered : list Swatch) (tier : Tier) :
  cardsOf (tierItems filtered tier) = List.filter (inTier tier) filtered.
Proof.
  unfold tierItems. case_decide as Hlen.
  - symmetry. by apply length_zero_iff_nil.
  - change (cardsOf (Header ?l ?n :: ?items)) with (cardsOf items).
    apply cardsOf_cards.
Qed.

Lemma cardsOf_all (filtered : list Swatch) :
  cardsOf (mjoin (tierItems filtered <$> tiers))
  = List.filter (λ s, (5 <=? scoreOf s)%Z) filtered
    ++ List.filter (λ s, (4 <=? scoreOf s)%Z && (scoreOf s <=? 4)%Z) filtered
    ++ List.filter (λ s, (3 <=? scoreOf s)%Z && (scoreOf s <=? 3)%Z) filtered
    ++ List.filter (λ s, (1 <=? scoreOf s)%Z && (scoreOf s <=? 2)%Z) filtered.
Proof.
  unfold tiers. simpl. unfold cardsOf. rewrite !omap_app.
  fold (cardsOf (tierItems filtered
    {| t_min := 5; t_max := None; t_label := "⭐ Favorites"; t_sublabel := "score 5-6" |})).
  fold (cardsOf (tierItems filtered
    {| t_min := 4; t_max := Some 4%Z; t_label := "👍 Strong"; t_sublabel := "score 4" |})).
  fold (cardsOf (tierItems filtered
    {| t_min := 3; t_max := Some 3%Z; t_label := "👀 Promising"; t_sublabel := "score 3" |})).
  fold (cardsOf (tierItems filtered
    {| t_min := 1; t_max := Some 2%Z; t_label := "🤔 Controversial"; t_sublabel := "score 1-2" |})).
  rewrite !cardsOf_tierItems. simpl. by rewrite app_nil_r.
Qed.

Lemma cardsOf_all_perm (filtered : list Swatch) :
  cardsOf (mjoin (tierItems filtered <$> tiers))
  ≡ₚ List.filter (λ s, (1 <=? scoreOf s)%Z) filtered.
Proof.
  rewrite cardsOf_all.
  induction filtered as [|s l IH]; [done|]. simpl.
  destruct (Z.leb_spec 5 (scoreOf s)), (Z.leb_spec 4 (scoreOf s)),
    (Z.leb_spec (scoreOf s) 4), (Z.leb_spec 3 (scoreOf s)),
    (Z.leb_spec (scoreOf s) 3), (Z.leb_spec 1 (scoreOf s)),
    (Z.leb_spec (scoreOf s) 2); try lia; simpl;
    rewrite <- ?Permutation_middle; by rewrite ?IH.
Qed.

(** X10. [renderSwatches] counts every swatch that passes the rating
    filter, but in the "all" view it lays cards out tier by tier, and a
    swatch whose score is below 1 or missing belongs to no tier: it is
    counted and gets no card. Every other swatch gets exactly one card;
    with any other filter the cards are the filtered swatches in their
    sorted order. *)
Theorem renderSwatches_cards (categoryFiltered : list Swatch) (filter : string) :
  (renderSwatches categoryFiltered filter).1
  = length (applyLikesFilter categoryFiltered filter)
  ∧ (filter = "all" →
     (renderSwatches categoryFiltered filter).1 = length categoryFiltered
     ∧ cardsOf (renderSwatches categoryFiltered filter).2
       ≡ₚ List.filter (λ s, (1 <=? scoreOf s)%Z) categoryFiltered)
  ∧ (filter ≠ "all" →
     cardsOf (renderSwatches categoryFiltered filter).2
     = applyLikesFilter categoryFiltered filter)
  ∧ length (cardsOf (renderSwatches categoryFiltered filter).2)
    ≤ (renderSwatches categoryFiltered filter).1.
Proof.
  unfold renderSwatches. cbn [fst snd].
  set (filtered := applyLikesFilter categoryFiltered filter).
  assert (Hcards : filter ≠ "all" →
            cardsOf (if decide (length filtered = 0) then [NoneFound]
                     else if decide (filter = "all")
                          then mjoin (tierItems filtered <$> tiers)
                          else Card <$> filtered) = filtered).
  { intros Hf. case_decide as Hlen.
    - symmetry. by apply length_zero_iff_nil.
    - rewrite decide_False by done. apply cardsOf_cards. }
  assert (Hall : filter = "all" →
            cardsOf (if decide (length filtered = 0) then [NoneFound]
                     else if decide (filter = "all")
                          then mjoin (tierItems filtered <$> tiers)
                          else Card <$> filtered)
            ≡ₚ List.filter (λ s, (1 <=? scoreOf s)%Z) filtered).
  { intros Hf. case_decide as Hlen.
    - apply length_zero_iff_nil in Hlen. by rewrite Hlen.
    - rewrite decide_True by done. apply cardsOf_all_perm. }
  assert (Hkeep : filter = "all" → filtered ≡ₚ categoryFiltered).
  { intros ->. unfold filtered, applyLikesFilter.
    rewrite sortSwatches_Permutation.
    assert (Hk : ∀ s, keeps "all" s = true) by (intros; reflexivity).
    clear -Hk. induction categoryFiltered as [|s l IH]; [done|].
    cbn [List.filter]. by rewrite Hk, IH. }
  split; [done|]. split; [|split].
  - intros Hf. split; [by rewrite (Hkeep Hf)|].
    rewrite (Hall Hf).
    assert (Hp : ∀ l1 l2 : list Swatch, l1 ≡ₚ l2 →
              List.filter (λ s, (1 <=? scoreOf s)%Z) l1
              ≡ₚ List.filter (λ s, (1 <=? scoreOf s)%Z) l2).
    { induction 1 as [|x l1 l2 H IH|x y l|l1 l2 l3 H1 IH1 H2 IH2]; simpl.
      - done.
      - destruct (1 <=? scoreOf x)%Z; [by apply perm_skip | done].
      - destruct (1 <=? scoreOf x)%Z, (1 <=? scoreOf y)%Z; try done.
        apply perm_swap.
      - by etrans. }
    by apply Hp, Hkeep.
  - done.
  - destruct (decide (filter = "all")) as [Hf|Hf].
    + rewrite (Hall Hf).
      clear. induction filtered as [|s l IH]; [done|]. simpl.
      case_match; simpl; lia.
    + by rewrite (Hcards Hf).
Qed.

Lemma renderSwatches_cards_witness :
  (renderSwatches
     [ {| sw_id := "s0"; sw_score := None; sw_likes := None |};
       {| sw_id := "s1"; sw_score := Some 5%Z; sw_likes := Some 2%Z |} ] "all").1
  = 2
  ∧ cardsOf (renderSwatches
     [ {| sw_id := "s0"; sw_score := None; sw_likes := None |};
       {| sw_id := "s1"; sw_score := Some 5%Z; sw_likes := Some 2%Z |} ] "all").2
    ≡ₚ [ {| sw_id := "s1"; sw_score := Some 5%Z; sw_likes := Some 2%Z |} ].
Proof.
  apply (renderSwatches_cards
     [ {| sw_id := "s0"; sw_score := None; sw_likes := None |};
       {| sw_id := "s1"; sw_score := Some 5%Z; sw_likes := Some 2%Z |} ] "all").
  reflexivity.
Defined.

End SwatchViews.


(** ** Ratings: identity, stores, subscriptions *)

Section RatingsMore.

Import Ratings.

Arguments normalizeText : simpl never.
Arguments JS.normalizeText : simpl never.

Ltac run_ops :=
  unfold mbind, M_bind, mret, M_ret, bind, ret, gets, modify, emit; cbn.

Arguments truthy : simpl never.
Arguments resolveUser : simpl never.

Lemma init_frame firestore userName ok st :
  let st' := stateOf (init firestore userName ok st) in
  db st' = firestore ∧ currentUser st' = truthy userName
  ∧ appUser st' = appUser st ∧ localStorage st' = localStorage st
  ∧ cache st' = cache st ∧ watchers st' = watchers st
  ∧ images (remote st') = images (remote st).
Proof.
  unfold init, ensureUserDocument. run_ops.
  destruct firestore; simpl; [|done].
  destruct (decide _), ok; done.
Qed.

(** X11. [resolveUser] never yields an empty name: it is the first
    non-empty one of the module's current user, the application's user
    and the stored user, and "Guest" when there is none. After
    [init(firestore, userName)] with a non-empty [userName] that name is
    the voter, whatever the application or the storage hold. *)
Theorem resolveUser_precedence (st : State) :
  resolveUser st ≠ ""
  ∧ (∀ u, currentUser st = Some u → u ≠ "" → resolveUser st = u)
  ∧ (truthy (currentUser st) = None →
     ∀ u, appUser st = Some u → u ≠ "" → resolveUser st = u)
  ∧ (truthy (currentUser st) = None → truthy (appUser st) = None →
     ∀ u, houseColorUser (localStorage st) = Some u → u ≠ "" → resolveUser st = u)
  ∧ (truthy (currentUser st) = None → truthy (appUser st) = None →
     truthy (houseColorUser (localStorage st)) = None → resolveUser st = "Guest")
  ∧ (∀ firestore userName ok,
       userName ≠ "" →
       resolveUser (stateOf (init firestore (Some userName) ok st)) = userName).
Proof.
  split; [apply resolveUser_nonempty|].
  unfold resolveUser.
  split; [|split; [|split; [|split]]].
  - intros u Hc Hu. unfold truthy at 1. by rewrite Hc, decide_False.
  - intros -> u Ha Hu. unfold truthy at 1. by rewrite Ha, decide_False.
  - intros -> -> u Hs Hu. unfold truthy at 1. by rewrite Hs, decide_False.
  - by intros -> -> ->.
  - intros firestore userName ok Hu.
    destruct (init_frame firestore (Some userName) ok st) as (_ & Hc & _).
    rewrite Hc. unfold truthy. cbv beta iota.
    rewrite decide_False by done. cbv beta iota.
    by rewrite decide_False.
Qed.

Lemma resolveUser_precedence_witness :
  resolveUser (stateOf (init true (Some "Ann") false annLocal)) = "Ann".
Proof.
  apply (resolveUser_precedence annLocal). discriminate.
Defined.

Ltac unfold_tail :=
  unfold persistDelta, offlineUpdate, ensureUserDocument, remoteDelete,
    remoteSet, writeOfflineStore, loadOfflineStore.

Lemma cells_update_other {V} (m : gmap string (gmap string V))
    (f : gmap string V → gmap string V) id user k u :
  (u ≠ user → ∀ c, f c !! u = c !! u) →
  (k, u) ≠ (id, user) →
  <[id := f (default ∅ (m !! id))]> m !! k ≫= (λ c, c !! u)
  = m !! k ≫= (λ c, c !! u).
Proof.
  intros Hf Hne. destruct (decide (k = id)) as [->|Hk].
  - rewrite lookup_insert_eq. simpl. rewrite Hf by congruence.
    by destruct (m !! id).
  - by rewrite lookup_insert_ne.
Qed.

(** Without a database the tail is one write of the local record. *)
Lemma persistDelta_offline id user value isToggleOff o st :
  db st = false →
  persistDelta id user value isToggleOff o st
  = (tt, set_houseRatings (applyDelta (offlineStore st) id user value isToggleOff) st,
     [EvLocalWrite STORAGE_KEY (applyDelta (offlineStore st) id user value isToggleOff)]).
Proof.
  intros Hdb. unfold_tail. unfold offlineStore. run_ops. by rewrite Hdb.
Qed.

(** With a database and a fulfilled write the tail changes the one remote
    cell and leaves the local record alone. *)
Lemma persistDelta_written id user value isToggleOff o st :
  db st = true → writeOk o = true →
  let r := persistDelta id user value isToggleOff o st in
  localStorage (stateOf r) = localStorage st
  ∧ images (remote (stateOf r))
    = <[id := (if isToggleOff then delete user else <[user := Some value]>)
                (default ∅ (images (remote st) !! id))]> (images (remote st))
  ∧ Forall (λ e, ∀ key store, e ≠ EvLocalWrite key store) (traceOf r).
Proof.
  unfold_tail.
  destruct st as [d cu au ls c w r], o as [uo wo]. simpl.
  intros -> ->.
  destruct uo, isToggleOff; run_ops; destruct (decide _); cbn;
    (split; [done|]); (split; [done|]);
    repeat (apply Forall_cons; split; [done|]); apply Forall_nil_2.
Qed.

Lemma persistDelta_others id user value isToggleOff o st k u :
  (k, u) ≠ (id, user) →
  remoteCell (stateOf (persistDelta id user value isToggleOff o st)) k u
  = remoteCell st k u
  ∧ cellOf (offlineStore (stateOf (persistDelta id user value isToggleOff o st))) k u
    = cellOf (offlineStore st) k u.
Proof.
  intros Hne.
  destruct (db st) eqn:Hdb.
  2:{ rewrite persistDelta_offline by done. split; [done|].
      unfold stateOf, offlineStore at 1. simpl. by apply applyDelta_other. }
  destruct (writeOk o) eqn:Hw.
  - destruct (persistDelta_written id user value isToggleOff o st Hdb Hw)
      as (Hls & Him & _).
    split.
    + unfold remoteCell. rewrite Him.
      apply (cells_update_other (images (remote st))
               (if isToggleOff then delete user else <[user := Some value]>)
               id user k u); [|done].
      intros Hu c. destruct isToggleOff.
      * by apply lookup_delete_ne.
      * by apply lookup_insert_ne.
    + unfold offlineStore. by rewrite Hls.
  - destruct (persistDelta_write_failed id user value isToggleOff o st Hdb Hw)
      as (Hls & Him & _).
    split.
    + unfold remoteCell. by rewrite Him.
    + unfold offlineStore at 1. rewrite Hls. simpl. by apply applyDelta_other.
Qed.

(** X12. Every write of [setRating] is scoped to one cell: whatever the
    arguments and the outcome of the remote operations, the cell of every
    other (image, voter) pair is left as it was, in the remote store and in
    the local record. *)
Theorem setRating_store_isolation imageId rating o st k u :
  (k, u) ≠ (normalizeText (Some imageId), resolveUser st) →
  remoteCell (stateOf (setRating imageId rating o st)) k u = remoteCell st k u
  ∧ cellOf (offlineStore (stateOf (setRating imageId rating o st))) k u
    = cellOf (offlineStore st) k u.
Proof.
  intros Hne.
  destruct (setRating_cases imageId rating o st) as [->|(_ & _ & ->)]; [done|].
  unfold setRatingTail.
  exact (persistDelta_others _ _ _ _ _ (set_cache _ st) k u Hne).
Qed.

Lemma setRating_store_isolation_witness :
  cellOf (offlineStore (stateOf (setRating "img1" "dislike" writeFails annLocal)))
         "img1" "Ann"
  = Some "like".
Proof.
  destruct (setRating_store_isolation "img1" "dislike" writeFails annLocal
              "img1" "Ann") as [_ Hl].
  - vm_compute. discriminate.
  - etrans; [exact Hl|]. vm_compute. reflexivity.
Defined.

Lemma setRating_own_toggle imageId rating o st :
  normalizeText (Some imageId) ≠ "" →
  VALID_has (normalizeText (Some rating)) = true →
  cachedVote (stateOf (setRating imageId rating o st))
    (normalizeText (Some imageId)) (resolveUser st)
  = if toggleOff (getCachedRatings st (normalizeText (Some imageId)))
         (resolveUser st) (normalizeText (Some rating))
    then None else Some (normalizeText (Some rating)).
Proof.
  intros Hid Hv. rewrite setRating_own_cell by done.
  unfold toggleOff, cachedVote. by case_decide; case_bool_decide.
Qed.

Lemma getRatings_offline imageId readOk st :
  db st = false →
  getRatings imageId readOk st
  = (if decide (normalizeText (Some imageId) = "") then ∅
     else default ∅ (offlineStore st !! normalizeText (Some imageId)), st, []).
Proof.
  intros Hdb. unfold getRatings, offlineRatings, loadOfflineStore, offlineStore.
  case_decide; [done|]. run_ops. by rewrite Hdb.
Qed.

(** *** Listeners *)

Lemma stateOf_bind {A B} (m : M A) (k : A → M B) st :
  stateOf ((m ≫= k) st) = stateOf (k (resultOf (m st)) (stateOf (m st))).
Proof.
  unfold mbind, M_bind, bind, resultOf, stateOf.
  destruct (m st) as [[a s1] t1]. cbn [fst snd].
  by destruct (k a s1) as [[b s2] t2].
Qed.

Lemma sameButWatchers_refl st : sameButWatchers st st.
Proof. by repeat split. Qed.

Lemma sameButWatchers_trans s3 s2 s1 :
  sameButWatchers s3 s2 → sameButWatchers s2 s1 → sameButWatchers s3 s1.
Proof.
  intros (? & ? & ? & ? & ? & ?) (? & ? & ? & ? & ? & ?).
  repeat split; congruence.
Qed.

Lemma callUnsubscribe_same u st :
  sameButWatchers (stateOf (callUnsubscribe u st)) st.
Proof.
  destruct u as [|id callback]; [apply sameButWatchers_refl|].
  rewrite callUnsubscribe_run. by repeat split.
Qed.

Lemma subscribeToRatings_same imageId callback st :
  sameButWatchers (stateOf (subscribeToRatings imageId callback st)) st.
Proof.
  destruct callback as [callback|]; [|apply sameButWatchers_refl].
  destruct (decide (normalizeText (Some imageId) = "")) as [Hid|Hid].
  - rewrite subscribeToRatings_blank by done. apply sameButWatchers_refl.
  - rewrite subscribeToRatings_run by done. by repeat split.
Qed.

Lemma mountCard_state imageId callback st :
  stateOf (mountCard imageId callback st)
  = if decide (normalizeText (Some imageId) = "") then st
    else stateOf (subscribeToRatings (normalizeText (Some imageId)) (Some callback) st).
Proof.
  unfold mountCard. case_decide; [done|]. by rewrite stateOf_bind.
Qed.

Lemma cleanupSubscriptions_same unsubscribers st :
  sameButWatchers (stateOf (cleanupSubscriptions unsubscribers st)) st.
Proof.
  revert st. induction unsubscribers as [|u us IH]; intros st.
  { apply sameButWatchers_refl. }
  cbn [cleanupSubscriptions]. rewrite stateOf_bind.
  eapply sameButWatchers_trans; [apply IH|apply callUnsubscribe_same].
Qed.

Lemma mountCards_same cards st :
  sameButWatchers (stateOf (mountCards cards st)) st.
Proof.
  revert st. induction cards as [|card cards IH]; intros st.
  { apply sameButWatchers_refl. }
  cbn [mountCards]. rewrite stateOf_bind.
  eapply sameButWatchers_trans; [apply IH|].
  rewrite mountCard_state. case_decide.
  - apply sameButWatchers_refl.
  - apply subscribeToRatings_same.
Qed.

(** A re-rendering inside the dispatch touches the registry only. *)
Lemma rerender_watchersOnly unsubscribers cards :
  watchersOnly (rerender unsubscribers cards).
Proof.
  intros id st. unfold rerender. rewrite stateOf_bind.
  eapply sameButWatchers_trans;
    [apply mountCards_same|apply cleanupSubscriptions_same].
Qed.

(** X13. Without a database a call that passes the guards finishes in
    the caller's task and issues no remote operation of its own: after the
    notifications, the ratingChanged event and what the listeners do, its
    one effect is a write of the local record, and the remote store is as
    before. For an image id and a voter other than the reserved property
    name [__proto__], and listeners that touch the registry only, the
    caller's cell of the record is the one the cache holds, and a
    following [getRatings] for the image reads it back. *)
Theorem setRating_offline_round_trip listener imageId rating o readOk st :
  let id := normalizeText (Some imageId) in
  let A := resolveUser st in
  let st' := stateOf (setRatingWith listener imageId rating o st) in
  id ≠ "" →
  id ≠ JS.protoKey →
  A ≠ JS.protoKey →
  VALID_has (normalizeText (Some rating)) = true →
  db st = false →
  watchersOnly listener →
  traceOf (setRatingWith listener imageId rating o st)
  = fanOut st id (optimistic st imageId rating)
    ++ EvRatingChanged id
    :: traceOf (heard listener st imageId rating)
    ++ [EvLocalWrite STORAGE_KEY (offlineStore st')]
  ∧ remote st' = remote st
  ∧ cellOf (offlineStore st') id A = cachedVote st' id A
  ∧ resultOf (getRatings imageId readOk st') !! A = cachedVote st' id A.
Proof.
  intros id A st' Hid _ _ Hv Hdb Hl.
  set (v := normalizeText (Some rating)).
  set (tog := toggleOff (getCachedRatings st id) A v).
  set (s2 := stateOf (heard listener st imageId rating)).
  assert (Hs2 : cache s2 = <[id := optimistic st imageId rating]> (cache st)
                ∧ localStorage s2 = localStorage st
                ∧ remote s2 = remote st ∧ db s2 = db st).
  { destruct (Hl id (dispatched st imageId rating)) as (? & ? & ? & ? & _).
    by repeat split. }
  destruct Hs2 as (Hc2 & Hls2 & Hr2 & Hdb2).
  assert (Hstore2 : offlineStore s2 = offlineStore st).
  { unfold offlineStore. by rewrite Hls2. }
  assert (Htail : persisted listener imageId rating o st
            = (tt, set_houseRatings (applyDelta (offlineStore st) id A v tog) s2,
               [EvLocalWrite STORAGE_KEY (applyDelta (offlineStore st) id A v tog)])).
  { unfold persisted. fold id v A s2 tog.
    rewrite persistDelta_offline by (by rewrite Hdb2). by rewrite Hstore2. }
  assert (Hst : st' = set_houseRatings (applyDelta (offlineStore st) id A v tog) s2).
  { unfold st'. rewrite setRatingWith_valid by done. by rewrite Htail. }
  assert (Hstore : offlineStore st' = applyDelta (offlineStore st) id A v tog).
  { by rewrite Hst. }
  assert (Hcached : cachedVote st' id A = if tog then None else Some v).
  { unfold cachedVote, getCachedRatings. rewrite Hst. simpl. rewrite Hc2.
    rewrite lookup_insert_eq. simpl.
    unfold optimistic. rewrite nextRatings_own. fold id v A.
    unfold tog, toggleOff. by case_decide; case_bool_decide. }
  assert (Hcell : cellOf (offlineStore st') id A = cachedVote st' id A).
  { by rewrite Hstore, applyDelta_cell, Hcached. }
  split; [|split; [|split]].
  - rewrite setRatingWith_valid by done. unfold traceOf at 1. cbn [snd].
    fold id. by rewrite Htail, Hstore.
  - rewrite Hst. simpl. by rewrite Hr2.
  - done.
  - assert (Hdb' : db st' = false).
    { rewrite Hst. simpl. by rewrite Hdb2. }
    rewrite getRatings_offline by done. unfold resultOf. cbn [fst].
    fold id. rewrite decide_False by done.
    rewrite <- Hcell. unfold cellOf. by destruct (offlineStore st' !! id).
Qed.

Lemma setRating_offline_round_trip_witness :
  resultOf (getRatings "img1" true
              (stateOf (setRatingWith (rerender [Unsub "img1" 7] [("img1", 11)])
                          "img1" "like" allOk offline0)))
    !! "Guest"
  = Some "like".
Proof.
  destruct (setRating_offline_round_trip (rerender [Unsub "img1" 7] [("img1", 11)])
              "img1" "like" allOk true offline0)
    as (_ & _ & _ & Hr).
  - vm_compute. discriminate.
  - vm_compute. discriminate.
  - vm_compute. discriminate.
  - vm_compute. reflexivity.
  - reflexivity.
  - apply rerender_watchersOnly.
  - etrans; [exact Hr|]. vm_compute. reflexivity.
Defined.

Lemma valid_trimmed v : VALID_has v = true → normalizeText (Some v) = v.
Proof.
  intros Hv%VALID_has_elem. unfold VALID in Hv.
  rewrite !elem_of_cons in Hv.
  destruct Hv as [->|[->|[->|Hv]]]; [by vm_compute..|].
  by apply elem_of_nil in Hv.
Qed.

(** X14. With a database and a fulfilled rating write, whether or not the
    write of the users document succeeded: the caller's remote cell holds
    the vote, or is gone after a retraction; the local record is not
    written; and a following [getRatings] whose read succeeds shows the
    caller's cell as the cache holds it. *)
Theorem setRating_online_round_trip imageId rating o st :
  let id := normalizeText (Some imageId) in
  let v := normalizeText (Some rating) in
  let A := resolveUser st in
  let st' := stateOf (setRating imageId rating o st) in
  id ≠ "" →
  VALID_has v = true →
  db st = true →
  writeOk o = true →
  remoteCell st' id A
  = (if toggleOff (getCachedRatings st id) A v then None else Some (Some v))
  ∧ localStorage st' = localStorage st
  ∧ Forall (λ e, ∀ key store, e ≠ EvLocalWrite key store)
           (traceOf (setRating imageId rating o st))
  ∧ resultOf (getRatings imageId true st') !! A = cachedVote st' id A.
Proof.
  intros id v A st' Hid Hv Hdb Hw.
  destruct (persistDelta_written id A v (toggleOff (getCachedRatings st id) A v) o
              (set_cache <[id := optimistic st imageId rating]> st) Hdb Hw)
    as (Hls & Him & Htr).
  change (persistDelta _ _ _ _ _ _) with (setRatingTail imageId rating o st)
    in Hls, Him, Htr.
  assert (Hst : st' = stateOf (setRatingTail imageId rating o st)).
  { unfold st'. by rewrite setRating_valid. }
  assert (Hcell : remoteCell st' id A
            = if toggleOff (getCachedRatings st id) A v then None else Some (Some v)).
  { unfold remoteCell. rewrite Hst, Him. simpl. rewrite lookup_insert_eq. simpl.
    destruct (toggleOff _ _ _).
    - apply lookup_delete_eq.
    - apply lookup_insert_eq. }
  split; [done|]. split; [by rewrite Hst|]. split.
  - rewrite setRating_valid by done. unfold traceOf at 1. cbn [snd].
    apply Forall_app. split.
    + unfold fanOut. apply Forall_fmap, Forall_true. done.
    + by apply Forall_cons.
  - assert (Hdb' : db st' = true).
    { rewrite Hst. by destruct (setRatingTail_frame imageId rating o st)
        as (_ & _ & -> & _). }
    rewrite getRatings_remote by done. unfold resultOf. cbn [fst].
    rewrite remoteSnapshot_lookup. fold id. rewrite Hcell.
    unfold st', id, A. rewrite setRating_own_toggle by done. fold id v A.
    destruct (toggleOff _ _ _); [done|]. simpl.
    unfold validCell. by rewrite (valid_trimmed v Hv), Hv.
Qed.

Lemma setRating_online_round_trip_witness :
  remoteCell (stateOf (setRating "img1" " unsure" {| usersDocOk := false; writeOk := true |}
                         online0)) "img1" "Guest"
  = Some (Some "unsure").
Proof.
  destruct (setRating_online_round_trip "img1" " unsure"
              {| usersDocOk := false; writeOk := true |} online0) as (Hc & _).
  - vm_compute. discriminate.
  - vm_compute. reflexivity.
  - reflexivity.
  - reflexivity.
  - etrans; [exact Hc|]. vm_compute. reflexivity.
Defined.

(** X15. Changing one's mind never retracts: for a voter other than the
    reserved property name [__proto__], whatever the starting state, a
    call with vote [v] followed by a call with a different valid vote [w]
    leaves the caller's cell at [w]. *)
Theorem setRating_switch_vote imageId v w o1 o2 st :
  let id := normalizeText (Some imageId) in
  normalizeText (Some imageId) ≠ "" →
  resolveUser st ≠ JS.protoKey →
  VALID_has (normalizeText (Some v)) = true →
  VALID_has (normalizeText (Some w)) = true →
  normalizeText (Some v) ≠ normalizeText (Some w) →
  cachedVote (stateOf (setRating imageId w o2 (stateOf (setRating imageId v o1 st))))
             id (resolveUser st)
  = Some (normalizeText (Some w)).
Proof.
  intros id Hid _ Hv Hw Hne.
  rewrite <- (setRating_resolveUser imageId v o1 st).
  unfold id. rewrite setRating_own_cell by done.
  rewrite setRating_resolveUser, setRating_own_cell by done.
  repeat case_decide; congruence.
Qed.

Lemma setRating_switch_vote_witness :
  cachedVote (stateOf (setRating "img1" "dislike" allOk
                (stateOf (setRating "img1" "like" allOk guestLikes))))
             "img1" "Guest"
  = Some "dislike".
Proof.
  apply (setRating_switch_vote "img1" "like" "dislike" allOk allOk guestLikes).
  - vm_compute. discriminate.
  - vm_compute. discriminate.
  - vm_compute. reflexivity.
  - vm_compute. reflexivity.
  - vm_compute. discriminate.
Defined.

(** X16. [getRatings] is read-only: whatever the id and the outcome of
    the remote read, the module state is unchanged (the cache is neither
    consulted nor filled) and no watcher is called. A blank id yields the
    empty map without any access, and without a database the answer is
    the local record's map for the image, again without remote access. *)
Theorem getRatings_read_only imageId readOk st :
  stateOf (getRatings imageId readOk st) = st
  ∧ Forall (λ e, isNotify e = false) (traceOf (getRatings imageId readOk st))
  ∧ (normalizeText (Some imageId) = "" → getRatings imageId readOk st = (∅, st, []))
  ∧ (normalizeText (Some imageId) ≠ "" → db st = false →
     getRatings imageId readOk st
     = (default ∅ (offlineStore st !! normalizeText (Some imageId)), st, [])).
Proof.
  destruct (getRatings_pure imageId readOk st) as [Hst Hno].
  split; [done|]. split; [done|]. split.
  - intros Hid. unfold getRatings. by rewrite decide_True.
  - intros Hid Hdb. rewrite getRatings_offline by done. by case_decide.
Qed.

Lemma getRatings_read_only_witness :
  getRatings "  " true guestLikes = (∅, guestLikes, []).
Proof.
  apply (proj1 (proj2 (proj2 (getRatings_read_only "  " true guestLikes)))).
  vm_compute. reflexivity.
Defined.

(** *** Subscriptions *)

Lemma set_add_elem fn set : fn ∈ set_add fn set.
Proof. unfold set_add. case_decide; [done|]. apply elem_of_app. right. by left. Qed.

Lemma set_add_NoDup fn set : NoDup set → NoDup (set_add fn set).
Proof.
  intros Hnd. unfold set_add. case_decide as Hin; [done|].
  apply NoDup_app. split; [done|]. split; [|apply NoDup_singleton].
  intros x Hx [->|[]%elem_of_nil]%elem_of_cons. done.
Qed.

Lemma set_delete_NoDup fn set : NoDup set → NoDup (set_delete fn set).
Proof.
  unfold set_delete. induction 1 as [|x l Hx Hl IH]; simpl; [constructor|].
  destruct (negb _); [|done].
  constructor; [|done].
  rewrite list_elem_of_In, filter_In, <- list_elem_of_In. tauto.
Qed.

Lemma registryOk_insert id set w :
  registryOk w → id ≠ "" → set ≠ [] → NoDup set → registryOk (<[id := set]> w).
Proof.
  intros Hw Hid Hne Hnd k s. destruct (decide (k = id)) as [->|Hk].
  - rewrite lookup_insert_eq. by intros [= <-].
  - rewrite lookup_insert_ne by done. apply Hw.
Qed.

Lemma registryOk_delete id w : registryOk w → registryOk (delete id w).
Proof.
  intros Hw k s. destruct (decide (k = id)) as [->|Hk].
  - by rewrite lookup_delete_eq.
  - rewrite lookup_delete_ne by done. apply Hw.
Qed.

Lemma hydrate_run id readOk st :
  hydrate id readOk st
  = (tt, set_cache <[id := resultOf (getRatings id readOk st)]> st,
     traceOf (getRatings id readOk st)
     ++ EvAwait :: fanOut st id (resultOf (getRatings id readOk st))).
Proof.
  unfold hydrate. unfold mbind, M_bind, bind.
  destruct (getRatings_pure id readOk st) as [Hst _].
  destruct (getRatings id readOk st) as [[ratings st0] t0].
  unfold stateOf in Hst. simpl in Hst. subst st0.
  unfold emit. by rewrite setCachedRatings_run.
Qed.

Lemma registry_ok_subscribe st imageId callback :
  registryOk (watchers st) →
  registryOk (watchers (stateOf (subscribeToRatings imageId callback st))).
Proof.
  intros Hw. destruct callback as [callback|]; [|done].
  destruct (decide (normalizeText (Some imageId) = "")) as [Hid|Hid].
  { by rewrite subscribeToRatings_blank. }
  rewrite subscribeToRatings_run by done. simpl.
  apply registryOk_insert; [done..| |].
  - intros Hnil. pose proof (set_add_elem callback
      (default [] (watchers st !! normalizeText (Some imageId)))) as Hin.
    rewrite Hnil in Hin. by apply elem_of_nil in Hin.
  - apply set_add_NoDup.
    destruct (watchers st !! normalizeText (Some imageId)) as [set|] eqn:E; simpl.
    + by apply (Hw _ _ E).
    + constructor.
Qed.

Lemma registry_ok_unsubscribe st u :
  registryOk (watchers st) →
  registryOk (watchers (stateOf (callUnsubscribe u st))).
Proof.
  intros Hw. destruct u as [|id callback]; [done|].
  rewrite callUnsubscribe_run. simpl. unfold withoutWatcher.
  destruct (watchers st !! id) as [set|] eqn:E; [|done].
  destruct (Hw _ _ E) as (Hid & _ & Hnd).
  case_decide as Hlen.
  - by apply registryOk_delete.
  - apply registryOk_insert; [done..| |by apply set_delete_NoDup].
    intros Hnil. by rewrite Hnil in Hlen.
Qed.

Lemma registry_ok_cleanup unsubscribers st :
  registryOk (watchers st) →
  registryOk (watchers (stateOf (cleanupSubscriptions unsubscribers st))).
Proof.
  revert st. induction unsubscribers as [|u us IH]; intros st Hw; [done|].
  cbn [cleanupSubscriptions]. rewrite stateOf_bind.
  by apply IH, registry_ok_unsubscribe.
Qed.

Lemma registry_ok_mountCards cards st :
  registryOk (watchers st) →
  registryOk (watchers (stateOf (mountCards cards st))).
Proof.
  revert st. induction cards as [|card cards IH]; intros st Hw; [done|].
  cbn [mountCards]. rewrite stateOf_bind. apply IH.
  rewrite mountCard_state. case_decide; [done|].
  by apply registry_ok_subscribe.
Qed.

Lemma rerender_keepsRegistry unsubscribers cards :
  keepsRegistry (rerender unsubscribers cards).
Proof.
  intros id st Hw. unfold rerender. rewrite stateOf_bind.
  by apply registry_ok_mountCards, registry_ok_cleanup.
Qed.

(** The code of [setRating] itself leaves the registry to the listeners:
    after a call it is what they made of it. *)
Lemma setRatingWith_watchers listener imageId rating o st :
  normalizeText (Some imageId) ≠ "" →
  VALID_has (normalizeText (Some rating)) = true →
  watchers (stateOf (setRatingWith listener imageId rating o st))
  = watchers (stateOf (heard listener st imageId rating)).
Proof.
  intros Hid Hv. rewrite setRatingWith_valid by done.
  unfold stateOf at 1. cbn [fst snd].
  by destruct (persisted_frame listener imageId rating o st) as (_ & -> & _).
Qed.

Lemma hydrateFrom_run id readOk stRead st :
  hydrateFrom id readOk stRead st
  = (tt, set_cache <[id := resultOf (getRatings id readOk stRead)]> st,
     EvAwait :: fanOut st id (resultOf (getRatings id readOk stRead))).
Proof.
  unfold hydrateFrom. unfold mbind, M_bind, bind, emit.
  by rewrite setCachedRatings_run.
Qed.

(** X17. The watcher registry stays well formed: if no set is stored
    under a blank key, no stored set is empty and no callback occurs twice
    in a set, then the same holds after [subscribeToRatings], after
    calling an unsubscribe function, after a re-rendering of the page
    (the clean-up and the mounting of new cards), and after [setRating]
    whatever listens to [ratingChanged], provided the listeners keep it
    well formed, as a re-rendering does. The code of [setRating] itself
    does not touch the registry, nor do a hydration, a live snapshot or
    [init]. It holds of the module as loaded. *)
Theorem registry_invariant (st : State) :
  registryOk (watchers st) →
  (∀ imageId callback,
     registryOk (watchers (stateOf (subscribeToRatings imageId callback st))))
  ∧ (∀ u, registryOk (watchers (stateOf (callUnsubscribe u st))))
  ∧ (∀ unsubscribers cards id,
       registryOk (watchers (stateOf (rerender unsubscribers cards id st))))
  ∧ (∀ listener imageId rating o,
       keepsRegistry listener →
       registryOk (watchers (stateOf (setRatingWith listener imageId rating o st))))
  ∧ (∀ unsubscribers cards imageId rating o,
       registryOk (watchers (stateOf (setRatingWith (rerender unsubscribers cards)
                                        imageId rating o st))))
  ∧ (∀ listener imageId rating o,
       normalizeText (Some imageId) ≠ "" →
       VALID_has (normalizeText (Some rating)) = true →
       watchers (stateOf (setRatingWith listener imageId rating o st))
       = watchers (stateOf (heard listener st imageId rating)))
  ∧ (∀ id readOk stRead,
       watchers (stateOf (hydrateFrom id readOk stRead st)) = watchers st)
  ∧ (∀ id snapshot, watchers (stateOf (onSnapshot id snapshot st)) = watchers st)
  ∧ (∀ firestore userName ok,
       watchers (stateOf (init firestore userName ok st)) = watchers st)
  ∧ (∀ app ls r, registryOk (watchers (loaded app ls r))).
Proof.
  intros Hw.
  assert (Hset : ∀ listener imageId rating o,
            keepsRegistry listener →
            registryOk (watchers (stateOf (setRatingWith listener imageId rating o st)))).
  { intros listener imageId rating o Hl.
    destruct (decide (normalizeText (Some imageId) = "")) as [Hid|Hid].
    { rewrite setRatingWith_skipped by by left. done. }
    destruct (VALID_has (normalizeText (Some rating))) eqn:Hv.
    2:{ rewrite setRatingWith_skipped by by right. done. }
    rewrite setRatingWith_watchers by done. apply Hl. done. }
  split; [|split; [|split; [|split; [|split; [|split; [|split; [|split; [|split]]]]]]]].
  - intros imageId callback. by apply registry_ok_subscribe.
  - intros u. by apply registry_ok_unsubscribe.
  - intros unsubscribers cards id. by apply rerender_keepsRegistry.
  - exact Hset.
  - intros unsubscribers cards imageId rating o.
    apply Hset, rerender_keepsRegistry.
  - intros listener imageId rating o. apply setRatingWith_watchers.
  - intros. by rewrite hydrateFrom_run.
  - intros. unfold onSnapshot. by rewrite setCachedRatings_run.
  - intros. by destruct (init_frame firestore userName ok st) as (_ & _ & _ & _ & _ & -> & _).
  - intros app ls r id set. simpl. by rewrite lookup_empty.
Qed.

Lemma registry_invariant_witness :
  registryOk (watchers (stateOf (setRatingWith (rerender [Unsub "img1" 7] [("img1", 11)])
                                   "img1" "like" allOk watched))).
Proof.
  apply (registry_invariant watched).
  apply registry_ok_subscribe, registry_ok_subscribe.
  intros id set Hset. exfalso. revert Hset.
  change (watchers guestLikes) with (∅ : gmap string (list Callback)).
  by rewrite lookup_empty.
Defined.

Lemma timesNotified_app id fn t1 t2 :
  timesNotified id fn (t1 ++ t2) = timesNotified id fn t1 + timesNotified id fn t2.
Proof. unfold timesNotified. by rewrite List.filter_app, length_app. Qed.

Lemma timesNotified_quiet id fn t :
  Forall (λ e, isNotify e = false) t → timesNotified id fn t = 0.
Proof.
  unfold timesNotified. induction 1 as [|e t He Ht IH]; [done|].
  simpl. destruct e; try done.
Qed.

Lemma timesNotified_fanOut st id fn ratings :
  NoDup (default [] (watchers st !! id)) →
  timesNotified id fn (fanOut st id ratings)
  = if decide (fn ∈ default [] (watchers st !! id)) then 1 else 0.
Proof.
  unfold timesNotified, fanOut.
  generalize (default [] (watchers st !! id)) as set.
  induction set as [|g set IH]; intros Hnd.
  { rewrite decide_False by apply not_elem_of_nil. done. }
  apply NoDup_cons in Hnd as [Hg Hnd]. rewrite fmap_cons. cbn [List.filter].
  specialize (IH Hnd).
  destruct (decide (g = fn)) as [->|Hne].
  - rewrite bool_decide_eq_true_2 by done. cbn [length]. rewrite IH.
    rewrite decide_False by done. rewrite decide_True by by left. done.
  - rewrite bool_decide_eq_false_2 by (intros [_ ?]; done). rewrite IH.
    destruct (decide (fn ∈ set)) as [Hin|Hin].
    + rewrite decide_True by by right. done.
    + rewrite decide_False; [done|]. rewrite not_elem_of_cons. by split.
Qed.

Lemma timesNotified_other_image st id ratings k fn :
  k ≠ id → timesNotified k fn (fanOut st id ratings) = 0.
Proof.
  intros Hk. unfold timesNotified, fanOut.
  induction (default [] (watchers st !! id)) as [|g set IH]; [done|].
  rewrite fmap_cons. cbn [List.filter].
  rewrite bool_decide_eq_false_2 by (intros [? _]; congruence). done.
Qed.

(** X18. With a well-formed registry, the fan-out of a [setRating] call
    that passes the guards calls each watcher registered for the image
    exactly once, with nobody else and no other image among its calls;
    whatever else the call's trace holds of callback calls was made by the
    [ratingChanged] listeners, since the persistence tail calls nobody. So
    when the listeners call nobody, each registered watcher is called
    exactly once in the whole call and nobody else is. Subscribing the
    same callback a second time changes nothing in the registry, so it is
    still called once. *)
Theorem setRating_notifies_exactly_once listener imageId rating o st :
  let id := normalizeText (Some imageId) in
  let trace := traceOf (setRatingWith listener imageId rating o st) in
  let first := fanOut st id (optimistic st imageId rating) in
  let made := traceOf (heard listener st imageId rating) in
  registryOk (watchers st) →
  id ≠ "" →
  VALID_has (normalizeText (Some rating)) = true →
  (∀ fn, timesNotified id fn first
         = if decide (fn ∈ default [] (watchers st !! id)) then 1 else 0)
  ∧ (∀ k fn, k ≠ id → timesNotified k fn first = 0)
  ∧ (∀ k fn, timesNotified k fn trace
             = timesNotified k fn first + timesNotified k fn made)
  ∧ (Forall (λ e, isNotify e = false) made →
     ∀ fn, timesNotified id fn trace
           = if decide (fn ∈ default [] (watchers st !! id)) then 1 else 0)
  ∧ (∀ callback ratings,
       let st1 := stateOf (subscribeToRatings imageId (Some callback) st) in
       let st2 := stateOf (subscribeToRatings imageId (Some callback) st1) in
       watchers st2 = watchers st1
       ∧ timesNotified id callback (fanOut st2 id ratings) = 1).
Proof.
  intros id trace first made Hw Hid Hv.
  assert (Hfirst : ∀ st0 ratings fn,
            registryOk (watchers st0) →
            timesNotified id fn (fanOut st0 id ratings)
            = if decide (fn ∈ default [] (watchers st0 !! id)) then 1 else 0).
  { intros st0 ratings fn Hw0. apply timesNotified_fanOut.
    destruct (watchers st0 !! id) as [set|] eqn:E; simpl.
    - by apply (Hw0 _ _ E).
    - constructor. }
  assert (Hsum : ∀ k fn, timesNotified k fn trace
                         = timesNotified k fn first + timesNotified k fn made).
  { intros k fn. unfold trace. rewrite setRatingWith_valid by done.
    unfold traceOf at 1. cbn [snd]. fold id first made.
    rewrite timesNotified_app.
    change (EvRatingChanged id :: ?t) with ([EvRatingChanged id] ++ t).
    rewrite !timesNotified_app.
    rewrite (timesNotified_quiet k fn (traceOf (persisted _ _ _ _ _)))
      by apply persistDelta_no_notify.
    change (timesNotified k fn [EvRatingChanged id]) with 0. lia. }
  split; [intros fn; by apply Hfirst|].
  split; [intros k fn Hk; by apply timesNotified_other_image|].
  split; [exact Hsum|]. split.
  { intros Hq fn. rewrite Hsum, (timesNotified_quiet id fn made) by done.
    unfold first. rewrite Hfirst by done. lia. }
  intros callback ratings st1 st2.
  assert (H1 : watchers st1
            = <[id := set_add callback (default [] (watchers st !! id))]> (watchers st)).
  { unfold st1. by rewrite subscribeToRatings_run. }
  assert (H2 : watchers st2 = watchers st1).
  { unfold st2. rewrite subscribeToRatings_run by done. fold id. simpl.
    rewrite H1, lookup_insert_eq. simpl. unfold set_add at 1.
    rewrite decide_True by apply set_add_elem.
    by rewrite insert_insert_eq. }
  split; [done|].
  rewrite Hfirst.
  - rewrite H2, H1, lookup_insert_eq. simpl.
    by rewrite decide_True by apply set_add_elem.
  - rewrite H2. unfold st1.
    by apply (registry_ok_subscribe st).
Qed.

Lemma setRating_notifies_exactly_once_witness :
  timesNotified "img1" 7
    (traceOf (setRatingWith noListener "img1" "like" allOk
                (stateOf (subscribeToRatings "img1" (Some 7) offline0))))
  = 1.
Proof.
  destruct (setRating_notifies_exactly_once noListener "img1" "like" allOk
              (stateOf (subscribeToRatings "img1" (Some 7) offline0)))
    as (_ & _ & _ & H1 & _).
  - apply registry_ok_subscribe. intros id set. simpl. by rewrite lookup_empty.
  - vm_compute. discriminate.
  - vm_compute. reflexivity.
  - etrans; [apply (H1 ltac:(vm_compute; constructor) 7)|].
    vm_compute. reflexivity.
Defined.



(** X20. A pending hydration resolves with the map its read produced,
    and the read was made earlier: inside [subscribeToRatings] when there
    is no database. When it resolves, the cache entry of the image becomes
    that map, whatever the cache holds by then, and the watchers
    registered at that moment are called with it; from then on a new
    subscription to the image starts no further hydration. So a vote cast
    between the subscription and the resolution is replaced in the cache
    by what the local record held at the subscription. When nothing
    happened in between, this is [hydrate]. *)
Theorem hydrate_fills_cache id readOk stRead st :
  let ratings := resultOf (getRatings id readOk stRead) in
  let st' := stateOf (hydrateFrom id readOk stRead st) in
  cache st' = <[id := ratings]> (cache st)
  ∧ traceOf (hydrateFrom id readOk stRead st) = EvAwait :: fanOut st id ratings
  ∧ (∀ u, cachedVote st' id u = ratings !! u)
  ∧ (∀ imageId callback,
       normalizeText (Some imageId) = id →
       hydration (resultOf (subscribeToRatings imageId (Some callback) st')) = None)
  ∧ (∀ rating o,
       normalizeText (Some id) = id → id ≠ "" →
       db stRead = false →
       let voted := stateOf (setRating id rating o stRead) in
       ∀ u, cachedVote (stateOf (hydrateFrom id readOk stRead voted)) id u
            = cellOf (offlineStore stRead) id u)
  ∧ (stateOf (hydrate id readOk st) = stateOf (hydrateFrom id readOk st st)
     ∧ traceOf (hydrate id readOk st)
       = traceOf (getRatings id readOk st) ++ traceOf (hydrateFrom id readOk st st)).
Proof.
  intros ratings st'.
  assert (Hcell : ∀ s u, cachedVote (stateOf (hydrateFrom id readOk stRead s)) id u
                         = ratings !! u).
  { intros s u. rewrite hydrateFrom_run. unfold cachedVote, getCachedRatings.
    simpl. by rewrite lookup_insert_eq. }
  split; [unfold st'; by rewrite hydrateFrom_run|].
  split; [by rewrite hydrateFrom_run|].
  split; [apply Hcell|]. split; [|split].
  - intros imageId callback Hid. unfold st'. rewrite hydrateFrom_run.
    destruct (decide (id = "")) as [Hb|Hb].
    + rewrite subscribeToRatings_blank by congruence. done.
    + rewrite subscribeToRatings_run by congruence. cbn [fst hydration].
      rewrite Hid. simpl. by rewrite lookup_insert_eq.
  - intros rating o Hid Hne Hdb voted u. rewrite Hcell.
    unfold ratings. rewrite getRatings_offline by done.
    unfold resultOf. cbn [fst]. rewrite Hid, decide_False by done.
    unfold cellOf. by destruct (offlineStore stRead !! id).
  - rewrite hydrate_run, hydrateFrom_run. done.
Qed.

Lemma hydrate_fills_cache_witness :
  cachedVote
    (stateOf (hydrateFrom "img1" true
                (stateOf (subscribeToRatings "img1" (Some 7) offline0))
                (stateOf (setRating "img1" "like" allOk
                            (stateOf (subscribeToRatings "img1" (Some 7) offline0))))))
    "img1" "Guest"
  = None.
Proof.
  etrans;
    [apply (proj1 (proj2 (proj2 (proj2 (proj2
              (hydrate_fills_cache "img1" true
                 (stateOf (subscribeToRatings "img1" (Some 7) offline0))
                 (stateOf (subscribeToRatings "img1" (Some 7) offline0)))))))
              "like" allOk);
       [vm_compute; reflexivity | discriminate | reflexivity]|].
  vm_compute. reflexivity.
Defined.

(** X21. A live snapshot replaces the cache entry of its image
    wholesale: afterwards a voter's cached cell is the valid value of the
    voter's document in the snapshot and nothing else, so a vote the cache
    held for a voter without a document is gone; the entries of the other
    images, the local record and the remote store are untouched, and the
    trace is the fan-out of the new map to the watchers of the image. *)
Theorem onSnapshot_replaces_entry id (snapshot : Snapshot) st :
  let st' := stateOf (onSnapshot id snapshot st) in
  NoDup snapshot.*1 →
  (∀ u, cachedVote st' id u
        = (list_to_map snapshot : gmap string (option string)) !! u ≫= validCell)
  ∧ (∀ u, u ∉ snapshot.*1 → cachedVote st' id u = None)
  ∧ (∀ k, k ≠ id → cache st' !! k = cache st !! k)
  ∧ localStorage st' = localStorage st ∧ remote st' = remote st
  ∧ traceOf (onSnapshot id snapshot st) = fanOut st id (snapshotRatings snapshot).
Proof.
  intros st' Hnd. unfold st', onSnapshot. rewrite setCachedRatings_run.
  unfold stateOf, traceOf. cbn [fst snd].
  assert (Hu : ∀ u, cachedVote (set_cache <[id := snapshotRatings snapshot]> st) id u
            = (list_to_map snapshot : gmap string (option string)) !! u ≫= validCell).
  { intros u. unfold cachedVote, getCachedRatings. simpl.
    rewrite lookup_insert_eq. simpl. unfold snapshotRatings.
    rewrite snapshot_fold_lookup by done. rewrite lookup_empty.
    destruct (list_to_map snapshot !! u) as [raw|]; simpl; [|done].
    by destruct (validCell raw). }
  split; [done|]. split; [|split; [|done]].
  - intros u Hnot. rewrite Hu.
    by rewrite (not_elem_of_list_to_map_1 snapshot u).
  - intros k Hk. simpl. by rewrite lookup_insert_ne.
Qed.

Lemma onSnapshot_replaces_entry_witness :
  cachedVote (stateOf (onSnapshot "img1" [("Ann", Some "like")] guestLikes))
             "img1" "Guest"
  = None.
Proof.
  apply (proj1 (proj2 (onSnapshot_replaces_entry "img1" [("Ann", Some "like")]
                         guestLikes ltac:(apply (bool_decide_unpack _); vm_compute; exact I)))).
  apply (bool_decide_unpack _). vm_compute. exact I.
Defined.

Lemma valid_nonempty v : VALID_has v = true → v ≠ "".
Proof. intros Hv ->. by vm_compute in Hv. Qed.

(** What a read of the caller's name yields from the map [setRating]
    computes. *)
Lemma optimistic_get st imageId rating :
  JS.get (optimistic st imageId rating) (resolveUser st)
  = if toggleOff (getCachedRatings st (normalizeText (Some imageId)))
         (resolveUser st) (normalizeText (Some rating))
    then (if JS.inherited (resolveUser st) then JS.Member else JS.Undefined)
    else JS.Own (normalizeText (Some rating)).
Proof.
  unfold JS.get, optimistic. rewrite nextRatings_own. unfold toggleOff.
  by case_decide; case_bool_decide.
Qed.

(** X22. What the card shows after a click, for a voter other than the
    reserved property name [__proto__]: when a card is updated with the
    map of a [setRating] call that passes the guards, the pressed buttons
    are exactly those whose [data-rating] trims to the vote just cast, and
    no button is pressed when the call retracted the vote; a button
    without the attribute is never pressed. *)
Theorem buttonActive_after_setRating imageId rating o st :
  let id := normalizeText (Some imageId) in
  let v := normalizeText (Some rating) in
  let st' := stateOf (setRating imageId rating o st) in
  id ≠ "" →
  resolveUser st ≠ JS.protoKey →
  VALID_has v = true →
  (∀ dataRating,
     buttonActive st' (optimistic st imageId rating) dataRating = true
     ↔ toggleOff (getCachedRatings st id) (resolveUser st) v = false
       ∧ normalizeText dataRating = v)
  ∧ buttonActive st' (optimistic st imageId rating) None = false.
Proof.
  intros id v st' Hid _ Hv.
  pose proof (valid_nonempty v Hv) as Hne.
  assert (Hall : ∀ dataRating,
     buttonActive st' (optimistic st imageId rating) dataRating = true
     ↔ toggleOff (getCachedRatings st id) (resolveUser st) v = false
       ∧ normalizeText dataRating = v).
  { intros dataRating. unfold buttonActive, st'.
    rewrite setRating_resolveUser, optimistic_get. fold id v.
    rewrite andb_true_iff, negb_true_iff, bool_decide_eq_false.
    destruct (toggleOff _ _ _).
    - destruct (JS.inherited _); simpl; split; intros [? ?]; done.
    - simpl. rewrite bool_decide_eq_true.
      split; [intros [? ?]; by split | intros [_ <-]; by split]. }
  split; [done|].
  apply not_true_iff_false. rewrite Hall. intros [_ Hn].
  apply Hne. rewrite <- Hn. by vm_compute.
Qed.

Lemma buttonActive_after_setRating_witness :
  buttonActive (stateOf (setRating "img1" "dislike" allOk guestLikes))
    (optimistic guestLikes "img1" "dislike") (Some " dislike ")
  = true.
Proof.
  apply (proj1 (buttonActive_after_setRating "img1" "dislike" allOk guestLikes
                  ltac:(vm_compute; discriminate) ltac:(vm_compute; discriminate)
                  ltac:(vm_compute; reflexivity))).
  split; vm_compute; reflexivity.
Defined.

(** X23. The gallery and the ratings module agree on who is voting as
    long as [init] gave the ratings module no name of its own:
    [getCurrentUser] of the gallery is then the voter [resolveUser] writes
    under, and it is never empty. In that case, for a voter other than the
    reserved property name [__proto__], the map of a click that passes the
    guards passes the gallery's "my-likes" filter exactly when the click
    cast a like, and its "unrated" filter exactly when the click retracted
    the vote and the voter's name is not one that every object inherits
    ([constructor], [toString], ...): under such a name [ratings[user]]
    is never falsy, and no image counts as unrated. *)
Theorem getCurrentUser_agrees imageId rating st :
  let id := normalizeText (Some imageId) in
  let v := normalizeText (Some rating) in
  let g := Gallery.getCurrentUser (appUser st) (houseColorUser (localStorage st)) in
  truthy (currentUser st) = None →
  g ≠ JS.protoKey →
  VALID_has v = true →
  g ≠ ""
  ∧ resolveUser st = g
  ∧ Gallery.passesFilter "unrated" g (optimistic st imageId rating)
    = toggleOff (getCachedRatings st id) (resolveUser st) v
      && negb (JS.inherited g)
  ∧ Gallery.passesFilter "my-likes" g (optimistic st imageId rating)
    = negb (toggleOff (getCachedRatings st id) (resolveUser st) v)
      && bool_decide (v = "like")
  ∧ (∀ ratings, JS.inherited g = true →
       Gallery.passesFilter "unrated" g ratings = true → ratings !! g = Some "").
Proof.
  intros id v g Hc _ Hv.
  assert (Hg : resolveUser st = g).
  { unfold resolveUser, g, Gallery.getCurrentUser, truthy in *. rewrite Hc.
    destruct (appUser st) as [a|]; [destruct (decide (a = ""))|];
      by destruct (houseColorUser (localStorage st)) as [h|];
        [destruct (decide (h = ""))|]. }
  split; [rewrite <- Hg; apply resolveUser_nonempty|]. split; [done|].
  pose proof (valid_nonempty v Hv) as Hne.
  pose proof (optimistic_get st imageId rating) as Hget.
  rewrite Hg in Hget at 1. fold id v in Hget.
  unfold Gallery.passesFilter. cbv zeta.
  rewrite decide_True by done.
  rewrite decide_False by discriminate. rewrite decide_True by done.
  split; [|split].
  - rewrite Hget. destruct (toggleOff _ _ _); simpl.
    + rewrite Hg. by destruct (JS.inherited g).
    + by apply bool_decide_eq_false_2.
  - rewrite Hget. destruct (toggleOff _ _ _); simpl; [|done].
    rewrite Hg. by destruct (JS.inherited g).
  - intros ratings Hin. rewrite decide_True by done.
    unfold JS.get. rewrite Hin.
    destruct (ratings !! g) as [x|]; simpl; [|done].
    by intros ->%bool_decide_eq_true.
Qed.

Lemma getCurrentUser_agrees_witness :
  Gallery.passesFilter "unrated"
    (Gallery.getCurrentUser (appUser guestLikes)
                            (houseColorUser (localStorage guestLikes)))
    (optimistic guestLikes "img1" " like ")
  = true.
Proof.
  etrans;
    [exact (proj1 (proj2 (proj2 (getCurrentUser_agrees "img1" " like " guestLikes
                                   eq_refl ltac:(vm_compute; discriminate)
                                   ltac:(vm_compute; reflexivity)))))|].
  vm_compute. reflexivity.
Defined.

End RatingsMore.
